(** * sitemonitor: the monitoring scheduler, its notification hub and
      the migration command

    A shallow embedding of package [monitor] (types [Site] and [Manager]),
    of the observer fan-out exercised by [TestNotifierService_Subject],
    and of [main] of cmd/migrate.

    Go pointers to [Site] are locations of an explicit heap; the methods
    of the package are programs of a small state monad whose failure mode
    is a Go panic.  Every lock operation, field write, log line and HTTP
    request is recorded in a trace, so that statements about which lock
    is held around which write are statements about that trace.  A
    goroutine is an entry of the world's task table; its two [select]
    arms are steps that an interleaving may take between the caller's
    operations.  [main] is a function from the answers of the outside
    world to the list of its external actions and the way it ends. *)

From Stdlib Require Import ZArith Lia.
From stdpp Require Import base option list gmap strings.

Local Open Scope Z_scope.

(** ** Constants and plain data *)

Definition statusUp : string := "up".
Definition statusError : string := "error".
Definition statusDown : string := "down".
Definition statusPaused : string := "paused".

(** [time.Duration] counts nanoseconds. *)
Definition Second : Z := 1000000000.

Record ClientConfig := mkClientConfig {
  Timeout : Z;
  MaxIdleConns : Z;
  IdleConnTimeout : Z
}.

Definition DefaultClientConfig : ClientConfig :=
  {| Timeout := 10 * Second;
     MaxIdleConns := 100;
     IdleConnTimeout := 90 * Second |}.

Record Transport := mkTransport {
  tr_MaxIdleConns : Z;
  tr_IdleConnTimeout : Z
}.

Record Client := mkClient {
  cl_Timeout : Z;
  cl_Transport : Transport
}.

(** A pointer is [None] for nil.  A context is named by a number; the
    [cancelFunc] field holds the context it cancels, [None] for a nil
    function value. *)
Definition loc := nat.
Definition ptr := option loc.
Definition ctx := nat.

(** [StatusChangedAt] is a [time.Time]; 0 stands for the zero time. *)
Record Site := mkSite {
  ID : Z;
  URL : string;
  Status : string;
  Enabled : bool;
  Interval : Z;
  StatusChangedAt : Z;
  cancelFunc : option ctx;
  client : option Client
}.

Definition set_Status (v : string) (s : Site) : Site :=
  mkSite (ID s) (URL s) v (Enabled s) (Interval s) (StatusChangedAt s)
         (cancelFunc s) (client s).
Definition set_StatusChangedAt (v : Z) (s : Site) : Site :=
  mkSite (ID s) (URL s) (Status s) (Enabled s) (Interval s) v
         (cancelFunc s) (client s).
Definition set_Enabled (v : bool) (s : Site) : Site :=
  mkSite (ID s) (URL s) (Status s) v (Interval s) (StatusChangedAt s)
         (cancelFunc s) (client s).
Definition set_cancelFunc (v : option ctx) (s : Site) : Site :=
  mkSite (ID s) (URL s) (Status s) (Enabled s) (Interval s)
         (StatusChangedAt s) v (client s).

(** NewSite: the fields the composite literal leaves out keep their zero
    value (empty [Status], zero [StatusChangedAt], nil [cancelFunc]). *)
Definition NewSite (id : Z) (url : string) (interval : Z)
    (config : ClientConfig) : Site :=
  let transport :=
    {| tr_MaxIdleConns := MaxIdleConns config;
       tr_IdleConnTimeout := IdleConnTimeout config |} in
  {| ID := id;
     URL := url;
     Status := "";
     Enabled := true;
     Interval := interval;
     StatusChangedAt := 0;
     cancelFunc := None;
     client := Some {| cl_Timeout := Timeout config;
                       cl_Transport := transport |} |}.

(** Go [error] values built by [fmt.Errorf] in the package. *)
Inductive error :=
  | ConnectionError (wrapped : string)
  | HTTPError (code : Z)
  | AlreadyMonitored (url : string).

(** What [s.client.Get] hands back: the environment's answer. *)
Inductive HTTPResult :=
  | TransportFailure (err : string)
  | Response (StatusCode : Z).

(** ** The world: heap, registry, contexts, goroutines, trace *)

Inductive mutex :=
  | SiteMu (l : loc)
  | ManagerMu.

Inductive event :=
  | EvLock (m : mutex)
  | EvUnlock (m : mutex)
  | EvGet (url : string)
  | EvBodyClose
  | EvWriteStatus (l : loc) (v : string)
  | EvWriteStatusChangedAt (l : loc) (t : Z)
  | EvWriteEnabled (l : loc) (v : bool)
  | EvWriteCancelFunc (l : loc) (c : ctx)
  | EvMapInsert (id : Z) (l : loc)
  | EvMapDelete (id : Z)
  | EvCancel (c : ctx)
  | EvGo (c : ctx) (l : loc)
  | EvExit (c : ctx)
  | EvLog (msg : string) (arg : string) (err : option error).

(** [sites] is the field [m.sites] of the one [Manager].  A goroutine is
    named by the context it closes over and mapped to the site it closes
    over: [spawned] holds the goroutines the [go] statement has started
    and that have not yet run their first statement
    ([time.NewTicker(site.Interval)]), [tasks] those that have created
    their ticker and are in the polling loop.  [cancelled] are the
    contexts whose [Done] channel is closed. *)
Record World := mkWorld {
  heap : gmap loc Site;
  next_loc : loc;
  sites : gmap Z loc;
  tasks : gmap ctx loc;
  cancelled : gset ctx;
  next_ctx : ctx;
  trace : list event;
  spawned : gmap ctx loc
}.

Definition NewManager : World :=
  {| heap := ∅; next_loc := 0%nat; sites := ∅; tasks := ∅;
     cancelled := ∅; next_ctx := 0%nat; trace := []; spawned := ∅ |}.

Definition set_heap (h : gmap loc Site) (w : World) : World :=
  mkWorld h (next_loc w) (sites w) (tasks w) (cancelled w) (next_ctx w)
          (trace w) (spawned w).
Definition set_sites (m : gmap Z loc) (w : World) : World :=
  mkWorld (heap w) (next_loc w) m (tasks w) (cancelled w) (next_ctx w)
          (trace w) (spawned w).
Definition set_tasks (t : gmap ctx loc) (w : World) : World :=
  mkWorld (heap w) (next_loc w) (sites w) t (cancelled w) (next_ctx w)
          (trace w) (spawned w).
Definition set_cancelled (c : gset ctx) (w : World) : World :=
  mkWorld (heap w) (next_loc w) (sites w) (tasks w) c (next_ctx w)
          (trace w) (spawned w).
Definition set_trace (t : list event) (w : World) : World :=
  mkWorld (heap w) (next_loc w) (sites w) (tasks w) (cancelled w)
          (next_ctx w) t (spawned w).
Definition set_spawned (g : gmap ctx loc) (w : World) : World :=
  mkWorld (heap w) (next_loc w) (sites w) (tasks w) (cancelled w)
          (next_ctx w) (trace w) g.

(** ** The monad: state with panics *)

Inductive result (A : Type) :=
  | Ok (a : A) (w : World)
  | Panic (msg : string) (w : World).
Arguments Ok {A} a w.
Arguments Panic {A} msg w.

Definition M (A : Type) : Type := World → result A.

Definition ret {A} (a : A) : M A := λ w, Ok a w.

Definition bind {A B} (f : A → M B) (m : M A) : M B :=
  λ w, match m w with
       | Ok a w' => f a w'
       | Panic msg w' => Panic msg w'
       end.

#[global] Instance M_ret : MRet M := @ret.
#[global] Instance M_bind : MBind M := @bind.

Definition panic {A} (msg : string) : M A := λ w, Panic msg w.

Definition world_of {A} (r : result A) : World :=
  match r with Ok _ w => w | Panic _ w => w end.

(** A deferred call runs when the function returns and when it panics. *)
Definition defer {A} (d : World → World) (body : M A) : M A :=
  λ w, match body w with
       | Ok a w' => Ok a (d w')
       | Panic msg w' => Panic msg (d w')
       end.

Definition record (e : event) (w : World) : World :=
  set_trace (trace w ++ [e]) w.

Definition emit (e : event) : M unit := λ w, Ok tt (record e w).

Definition nil_deref : string :=
  "invalid memory address or nil pointer dereference".

(** Reading through a pointer; nil panics. *)
Definition load (p : ptr) : M Site :=
  λ w, match p with
       | None => Panic nil_deref w
       | Some l =>
           match heap w !! l with
           | Some s => Ok s w
           | None => Panic nil_deref w
           end
       end.

Definition store (l : loc) (s : Site) : M unit :=
  λ w, Ok tt (set_heap (<[l := s]> (heap w)) w).

Definition gets {A} (f : World → A) : M A := λ w, Ok (f w) w.

Definition modify (f : World → World) : M unit := λ w, Ok tt (f w).

Definition alloc (s : Site) : M ptr :=
  λ w, let l := next_loc w in
       Ok (Some l)
          (mkWorld (<[l := s]> (heap w)) (S l) (sites w) (tasks w)
                   (cancelled w) (next_ctx w) (trace w) (spawned w)).

(** ** Site methods *)

(** updateStatus: lock, deferred unlock, and the guarded pair of writes;
    [now] is the reading [time.Now()] would give. *)
Definition updateStatus (l : loc) (status : string) (now : Z) : M unit :=
  emit (EvLock (SiteMu l));;
  defer (record (EvUnlock (SiteMu l)))
    (s ← load (Some l);
     if bool_decide (Status s ≠ status) then
       store l (set_Status status s);;
       emit (EvWriteStatus l status);;
       s1 ← load (Some l);
       store l (set_StatusChangedAt now s1);;
       emit (EvWriteStatusChangedAt l now)
     else mret tt).

(** Check: [r] is what the GET produced.  A nil receiver or a nil
    [client] panics at [s.client.Get(s.URL)]. *)
Definition Check (p : ptr) (r : HTTPResult) (now : Z) : M (option error) :=
  match p with
  | None => panic nil_deref
  | Some l =>
      s ← load (Some l);
      match client s with
      | None => panic nil_deref
      | Some _ =>
          emit (EvGet (URL s));;
          match r with
          | TransportFailure err =>
              updateStatus l statusError now;;
              mret (Some (ConnectionError err))
          | Response code =>
              defer (record EvBodyClose)
                (if bool_decide (400 ≤ code) then
                   updateStatus l statusDown now;;
                   mret (Some (HTTPError code))
                 else
                   updateStatus l statusUp now;;
                   mret None)
          end
      end
  end.

(** ** Contexts and goroutines *)

(** [context.WithCancel(context.Background())]: a fresh context, and the
    function that cancels it. *)
Definition WithCancel : M ctx :=
  λ w, let c := next_ctx w in
       Ok c (mkWorld (heap w) (next_loc w) (sites w) (tasks w)
                     (cancelled w) (S c) (trace w) (spawned w)).

(** Calling a [context.CancelFunc]; a nil function value panics. *)
Definition call_cancel (f : option ctx) : M unit :=
  match f with
  | None => panic nil_deref
  | Some c =>
      modify (λ w, set_cancelled ({[c]} ∪ cancelled w) w);;
      emit (EvCancel c)
  end.

(** The [go] statement of RegisterSite: the goroutine closes over the
    context and the site pointer; it has not run yet. *)
Definition go (c : ctx) (l : loc) : M unit :=
  modify (λ w, set_spawned (<[c := l]> (spawned w)) w);;
  emit (EvGo c l).

Definition ticker_panic : string := "non-positive interval for NewTicker".

(** The first statement of the goroutine,
    [ticker := time.NewTicker(site.Interval)]: NewTicker panics on an
    interval that is not positive, and a panic in a goroutine ends the
    program; otherwise the goroutine enters its polling loop. *)
Definition start_case (c : ctx) (l : loc) : M unit :=
  s ← load (Some l);
  if bool_decide (Interval s ≤ 0) then panic ticker_panic
  else
    modify (λ w, set_spawned (delete c (spawned w)) w);;
    modify (λ w, set_tasks (<[c := l]> (tasks w)) w).

(** The [case <-ctx.Done()] arm of the polling loop. *)
Definition done_case (c : ctx) (l : loc) : M unit :=
  s ← load (Some l);
  emit (EvLog "Monitoring stopperd" (URL s) None);;
  emit (EvLock ManagerMu);;
  s1 ← load (Some l);
  modify (λ w, set_sites (delete (ID s1) (sites w)) w);;
  emit (EvMapDelete (ID s1));;
  emit (EvUnlock ManagerMu);;
  modify (λ w, set_tasks (delete c (tasks w)) w);;
  emit (EvExit c).

(** The [case <-ticker.C] arm of the polling loop. *)
Definition tick_case (l : loc) (r : HTTPResult) (now : Z) : M unit :=
  s ← load (Some l);
  if negb (Enabled s) then mret tt
  else
    err ← Check (Some l) r now;
    match err with
    | Some e =>
        s1 ← load (Some l);
        emit (EvLog "Site check failed" (URL s1) (Some e))
    | None => mret tt
    end.

(** ** Manager methods *)

Definition RegisterSite (site : ptr) : M (option error) :=
  emit (EvLock ManagerMu);;
  defer (record (EvUnlock ManagerMu))
    (s ← load site;
     m ← gets sites;
     match m !! ID s, site with
     | Some _, _ => mret (Some (AlreadyMonitored (URL s)))
     | None, None => panic nil_deref
     | None, Some l =>
         c ← WithCancel;
         store l (set_cancelFunc (Some c) s);;
         emit (EvWriteCancelFunc l c);;
         s1 ← load site;
         modify (λ w, set_sites (<[ID s1 := l]> (sites w)) w);;
         emit (EvMapInsert (ID s1) l);;
         go c l;;
         s2 ← load site;
         emit (EvLog "Monitoring started" (URL s2) None);;
         mret None
     end).

(** RevokeSite.  In the [else] arm the variable [site] is the zero value
    of [*Site], and the argument [site.URL] of the log call reads
    through it. *)
Definition RevokeSite (siteID : Z) : M unit :=
  emit (EvLock ManagerMu);;
  defer (record (EvUnlock ManagerMu))
    (m ← gets sites;
     match m !! siteID with
     | Some l =>
         s ← load (Some l);
         call_cancel (cancelFunc s);;
         modify (λ w, set_sites (delete siteID (sites w)) w);;
         emit (EvMapDelete siteID);;
         s1 ← load (Some l);
         emit (EvLog "Monitoring Stopped" (URL s1) None)
     | None =>
         s ← load None;
         emit (EvLog "Site removed, but no monitoring was active"
                     (URL s) None)
     end).

Definition EnableSite (siteID : Z) : M unit :=
  emit (EvLock ManagerMu);;
  defer (record (EvUnlock ManagerMu))
    (m ← gets sites;
     match m !! siteID with
     | Some l =>
         s ← load (Some l);
         store l (set_Enabled true s);;
         emit (EvWriteEnabled l true);;
         s1 ← load (Some l);
         emit (EvLog "Site monitoring enabled" (URL s1) None)
     | None => mret tt
     end).

Definition DisableSite (siteID : Z) : M unit :=
  emit (EvLock ManagerMu);;
  defer (record (EvUnlock ManagerMu))
    (m ← gets sites;
     match m !! siteID with
     | Some l =>
         s ← load (Some l);
         store l (set_Enabled false s);;
         emit (EvWriteEnabled l false);;
         s1 ← load (Some l);
         emit (EvLog "Site monitoring disabled" (URL s1) None)
     | None => mret tt
     end).

(** ** Runs: caller operations interleaved with goroutine steps *)

Inductive op :=
  | OpNewSite (id : Z) (url : string) (interval : Z) (config : ClientConfig)
  | OpCheck (p : ptr) (r : HTTPResult) (now : Z)
  | OpRegister (p : ptr)
  | OpRevoke (id : Z)
  | OpEnable (id : Z)
  | OpDisable (id : Z)
  | OpStart (c : ctx)
  | OpTick (c : ctx) (r : HTTPResult) (now : Z)
  | OpDone (c : ctx).

(** A goroutine step is taken only by a live goroutine: the first
    statement by one that has not run yet, the arms of the [select] by
    one in its polling loop, and the [Done] arm only once its context is
    cancelled. *)
Definition step (o : op) : M unit :=
  match o with
  | OpNewSite id url interval config =>
      alloc (NewSite id url interval config);; mret tt
  | OpCheck p r now => Check p r now;; mret tt
  | OpRegister p => RegisterSite p;; mret tt
  | OpRevoke id => RevokeSite id
  | OpEnable id => EnableSite id
  | OpDisable id => DisableSite id
  | OpStart c =>
      g ← gets spawned;
      match g !! c with
      | Some l => start_case c l
      | None => mret tt
      end
  | OpTick c r now =>
      t ← gets tasks;
      match t !! c with
      | Some l => tick_case l r now
      | None => mret tt
      end
  | OpDone c =>
      t ← gets tasks;
      cs ← gets cancelled;
      match t !! c with
      | Some l => if bool_decide (c ∈ cs) then done_case c l else mret tt
      | None => mret tt
      end
  end.

(** A panic ends the program: the remaining operations do not run. *)
Fixpoint run (os : list op) : M unit :=
  match os with
  | [] => mret tt
  | o :: rest => step o;; run rest
  end.

(** The events a call appended to the trace. *)
Definition appended (w w' : World) (evs : list event) : Prop :=
  trace w' = trace w ++ evs.

(** The values [Status] takes: the zero value NewSite leaves, and the
    three constants Check writes. *)
Definition valid_status (st : string) : Prop :=
  st = "" ∨ st = statusUp ∨ st = statusDown ∨ st = statusError.

Definition statuses_valid (w : World) : Prop :=
  ∀ l s, heap w !! l = Some s → valid_status (Status s).

(** A program keeps the status invariant, also when it panics. *)
Definition preserves {A} (m : M A) : Prop :=
  ∀ w, statuses_valid w → statuses_valid (world_of (m w)).

(** The ticks of one polling goroutine, each with the answer its GET
    would get and the clock reading. *)
Definition ticks_of (c : ctx) (ts : list (HTTPResult * Z)) : list op :=
  map (λ t, OpTick c t.1 t.2) ts.

(** ** Sample worlds used to instantiate the theorems *)

Definition site_a : Site := NewSite 1 "http://a.test" (10 * Second)
                                    DefaultClientConfig.

(** One site allocated, nothing registered. *)
Definition world_alloc : World := world_of (alloc site_a NewManager).

(** The same site after [RegisterSite], its goroutine not yet run. *)
Definition world_spawned : World :=
  world_of (RegisterSite (Some 0%nat) world_alloc).

(** The same site registered and its goroutine in the polling loop. *)
Definition world_reg : World := world_of (step (OpStart 0%nat) world_spawned).

(** ** Well-formed registries *)

(** Two records of one site agree on what no method of the package
    rewrites after registration. *)
Definition site_agree (s s' : Site) : Prop :=
  ID s = ID s' ∧ URL s = URL s' ∧ Interval s = Interval s' ∧
  cancelFunc s = cancelFunc s' ∧ client s = client s'.

(** [frame w w']: registry, goroutines (run or not), contexts and
    allocation are the same, and every site is still there with the same identity; Status,
    StatusChangedAt, Enabled and the trace may differ. *)
Definition frame (w w' : World) : Prop :=
  sites w' = sites w ∧ tasks w' = tasks w ∧ spawned w' = spawned w ∧
  cancelled w' = cancelled w ∧
  next_ctx w' = next_ctx w ∧ next_loc w' = next_loc w ∧
  ∀ l : loc, match heap w !! l, heap w' !! l with
       | Some s, Some s' => site_agree s s'
       | None, None => True
       | _, _ => False
       end.

Definition frames {A} (m : M A) : Prop := ∀ w, frame w (world_of (m w)).

(** The site a live goroutine closes over, whether it has run or not. *)
Definition live (w : World) (c : ctx) : option loc :=
  match spawned w !! c with
  | Some l => Some l
  | None => tasks w !! c
  end.

(** The registry invariant: an entry [id ↦ l] points at a live site whose
    ID is [id] and whose cancellation handle names an uncancelled context
    under which a goroutine closing over that very site is live;
    goroutines close over allocated sites, and those in the polling loop
    over sites with a positive interval; contexts and locations in use
    are below the next fresh ones. *)
Definition registry_wf (w : World) : Prop :=
  (∀ (id : Z) (l : loc), sites w !! id = Some l →
     ∃ (s : Site) (c : ctx),
       heap w !! l = Some s ∧ ID s = id ∧ cancelFunc s = Some c ∧
       live w c = Some l ∧ c ∉ cancelled w) ∧
  (∀ (c : ctx) (l : loc), spawned w !! c = Some l →
     (c < next_ctx w)%nat ∧ is_Some (heap w !! l)) ∧
  (∀ (c : ctx) (l : loc), tasks w !! c = Some l →
     (c < next_ctx w)%nat ∧
     ∃ s : Site, heap w !! l = Some s ∧ 0 < Interval s) ∧
  (∀ c : ctx, c ∈ cancelled w → (c < next_ctx w)%nat) ∧
  (∀ l : loc, is_Some (heap w !! l) → (l < next_loc w)%nat).

(** The worlds a program can be in: whatever a sequence of operations
    leaves, starting from an empty manager. *)
Definition reached (os : list op) : World := world_of (run os NewManager).

(** The status Check writes for an outcome of the GET. *)
Definition classify (r : HTTPResult) : string :=
  match r with
  | TransportFailure _ => statusError
  | Response code => if bool_decide (400 ≤ code) then statusDown else statusUp
  end.

(** The error Check returns for an outcome of the GET. *)
Definition check_error (r : HTTPResult) : option error :=
  match r with
  | TransportFailure err => Some (ConnectionError err)
  | Response code =>
      if bool_decide (400 ≤ code) then Some (HTTPError code) else None
  end.

(** The record of a site after a write of [status] at time [now]. *)
Definition with_status (status : string) (now : Z) (s : Site) : Site :=
  if decide (Status s = status) then s
  else set_StatusChangedAt now (set_Status status s).

(** No GET among the events. *)
Definition no_get (evs : list event) : Prop :=
  ∀ url, EvGet url ∉ evs.

(** ** Lock discipline, read off the trace *)

#[global] Instance mutex_eq_dec : EqDecision mutex.
Proof. solve_decision. Defined.

(** One event against the lock currently held ([None]: no lock).  Taking
    a lock while one is held, releasing a lock that is not the one held,
    writing Status or StatusChangedAt of a site outside that site's lock
    and changing the registry map outside the manager's lock are
    violations. *)
Definition lock_step (held : option mutex) (e : event)
    : option (option mutex) :=
  match e with
  | EvLock m =>
      match held with None => Some (Some m) | Some _ => None end
  | EvUnlock m =>
      if decide (held = Some m) then Some None else None
  | EvWriteStatus l _ | EvWriteStatusChangedAt l _ =>
      if decide (held = Some (SiteMu l)) then Some held else None
  | EvMapInsert _ _ | EvMapDelete _ =>
      if decide (held = Some ManagerMu) then Some held else None
  | _ => Some held
  end.

Fixpoint locks_scan (held : option mutex) (evs : list event)
    : option (option mutex) :=
  match evs with
  | [] => Some held
  | e :: rest =>
      match lock_step held e with
      | Some h => locks_scan h rest
      | None => None
      end
  end.

(** A whole trace is in order when it violates nothing and ends with no
    lock held. *)
Definition locks_ok (t : list event) : Prop := locks_scan None t = Some None.

(** A program that, started while [h] is held, violates nothing and ends
    with [h] held, whether it returns or panics. *)
Definition runs_under {A} (h : option mutex) (m : M A) : Prop :=
  ∀ w, ∃ evs, trace (world_of (m w)) = trace w ++ evs ∧
              locks_scan h evs = Some h.

(** The sites and operations of the ID-reuse scenario: a site is
    registered, revoked and registered again before the goroutine of the
    first registration has observed its cancellation; both goroutines
    are in their polling loop. *)
Definition reuse_ops : list op :=
  [OpNewSite 1 "http://a.test" (10 * Second) DefaultClientConfig;
   OpRegister (Some 0%nat); OpStart 0%nat; OpRevoke 1;
   OpRegister (Some 0%nat); OpStart 1%nat].

(** ** The migration command ([main] of cmd/migrate) *)

Module migrate_cmd.

Inductive direction := Up | Down.

(** An argument of a [Printf]-style call.  Format strings are kept as
    the source writes them, escapes included. *)
Inductive arg :=
  | ArgInt (n : Z)
  | ArgStr (s : string).

(** What [main] does to the outside world, in order.  [AExec] is
    [migrate.Exec] (no limit), [AExecMax] is [migrate.ExecMax]. *)
Inductive action :=
  | ALoadEnv (filename : string)
  | AInitDatabase
  | ACloseDB
  | AExec (dir : direction)
  | AExecMax (dir : direction) (max : Z)
  | AGetMigrationRecords
  | AWriteFile (name : string) (content : string) (perm : Z)
  | APrint (format : string) (args : list arg).

(** The answers of the outside world: [exec k a] is what the [k]-th
    migration call of a command returns when it is the call [a]. *)
Record Env := mkEnv {
  load_env : string → option string;
  init_database : option string;
  exec : nat → action → Z * option string;
  migration_records : list string * option string;
  timestamp : string;
  write_file : string → option string
}.

(** How a command closure ends: it returns nil or an error, or panics. *)
Inductive cmd_result :=
  | CmdOk
  | CmdErr (err : string)
  | CmdPanic (format : string) (args : list arg).

(** How [main] ends. *)
Inductive outcome :=
  | Returned
  | Panicked (format : string) (args : list arg).

Definition migrationsDir : string := "./migrations".

Definition migration_template : string :=
  "-- +migrate Up


-- +migrate Down
".

Definition loadEnvFile (env : Env) (useTestEnv : bool)
    : list action * option string :=
  let filename := if useTestEnv then ".env.test" else ".env" in
  ([ALoadEnv filename], load_env env filename).

Definition cmd_up (env : Env) (args : list string)
    : list action * cmd_result :=
  let a := AExec Up in
  match exec env 0 a with
  | (_, Some err) => ([a], CmdErr err)
  | (n, None) => ([a; APrint "Applied %d migrations!\n" [ArgInt n]], CmdOk)
  end.

Definition cmd_down (env : Env) (args : list string)
    : list action * cmd_result :=
  let a := AExecMax Down 1 in
  match exec env 0 a with
  | (_, Some err) => ([a], CmdErr err)
  | (n, None) => ([a; APrint "Rolled back %d migration!\n" [ArgInt n]], CmdOk)
  end.

Definition cmd_new (env : Env) (args : list string)
    : list action * cmd_result :=
  match args with
  | _ :: name :: _ =>
      let migrationFile :=
        (migrationsDir ++ "/" ++ timestamp env ++ "_" ++ name ++ ".sql")%string
      in
      let a := AWriteFile migrationFile migration_template 420 in
      match write_file env migrationFile with
      | Some err => ([a], CmdErr err)
      | None =>
          ([a; APrint "Created migration file: %s\n" [ArgStr migrationFile]],
           CmdOk)
      end
  | _ => ([], CmdPanic "Please provide a name for the migration" [])
  end.

Definition cmd_redo (env : Env) (args : list string)
    : list action * cmd_result :=
  let a := AExecMax Down 1 in
  match exec env 0 a with
  | (_, Some err) => ([a], CmdErr err)
  | (n, None) =>
      let b := AExecMax Up 1 in
      match exec env 1 b with
      | (_, Some err) =>
          ([a; APrint "Rolled back %d migration!\n" [ArgInt n]; b], CmdErr err)
      | (n', None) =>
          ([a; APrint "Rolled back %d migration!\n" [ArgInt n]; b;
            APrint "Reapplied %d migration!\n" [ArgInt n']], CmdOk)
      end
  end.

Definition cmd_status (env : Env) (args : list string)
    : list action * cmd_result :=
  match migration_records env with
  | (_, Some err) => ([AGetMigrationRecords], CmdErr err)
  | ([], None) =>
      ([AGetMigrationRecords; APrint "No migrations applied yet." []],
       CmdOk)
  | (records, None) =>
      (AGetMigrationRecords :: APrint "Applied migrations:" [] ::
       map (λ id, APrint "- %s\n" [ArgStr id]) records, CmdOk)
  end.

Definition cmd_fresh (env : Env) (args : list string)
    : list action * cmd_result :=
  let a := AExec Down in
  match exec env 0 a with
  | (_, Some err) => ([a], CmdErr err)
  | (n, None) =>
      let b := AExec Up in
      match exec env 1 b with
      | (_, Some err) =>
          ([a; APrint "Rolled back %d migrations!\n" [ArgInt n]; b], CmdErr err)
      | (n', None) =>
          ([a; APrint "Rolled back %d migrations!\n" [ArgInt n]; b;
            APrint "Applied %d migrations!\n" [ArgInt n']], CmdOk)
      end
  end.

(** The last line [main] prints. *)
Definition success_message : action :=
  APrint "Command executed successfully!" [].

(** The map literal [commands]. *)
Definition commands
    : list (string * (Env → list string → list action * cmd_result)) :=
  [("up", cmd_up); ("down", cmd_down); ("new", cmd_new);
   ("redo", cmd_redo); ("status", cmd_status); ("fresh", cmd_fresh)].

Fixpoint lookup_command {V : Type} (key : string)
    (m : list (string * V)) : option V :=
  match m with
  | [] => None
  | (k, v) :: rest =>
      if bool_decide (key = k) then Some v else lookup_command key rest
  end.

(** The lookup in [commands] and what follows it. *)
Definition dispatch (env : Env) (command : string) (args : list string)
    : list action * outcome :=
  match lookup_command command commands with
  | Some cmdFunc =>
      match cmdFunc env args with
      | (t, CmdOk) => (t ++ [success_message], Returned)
      | (t, CmdErr err) =>
          (t, Panicked "Failed to execute command %s: %v" [ArgStr command; ArgStr err])
      | (t, CmdPanic format a) => (t, Panicked format a)
      end
  | None => ([], Panicked "Unknown command: %s" [ArgStr command])
  end.

(** [main]: [useTestEnv] is the flag [-test], [args] is [flag.Args()].
    The deferred [config.DB.Close()] runs when [main] returns and when it
    panics. *)
Definition main (env : Env) (useTestEnv : bool) (args : list string)
    : list action * outcome :=
  let (t0, err) := loadEnvFile env useTestEnv in
  match err with
  | Some e => (t0, Panicked "Failed to load environment file: %v" [ArgStr e])
  | None =>
      match args with
      | [] =>
          (t0,
           Panicked
             "Please provide a command (up, down, create, redo, status, fresh)"
             [])
      | command :: _ =>
          if bool_decide (command ≠ "new") then
            match init_database env with
            | Some e =>
                (t0 ++ [AInitDatabase],
                 Panicked "Failed to initialize database: %v" [ArgStr e])
            | None =>
                let (t, o) := dispatch env command args in
                (t0 ++ [AInitDatabase] ++ t ++ [ACloseDB], o)
            end
          else
            let (t, o) := dispatch env command args in (t0 ++ t, o)
      end
  end.

(** The actions that reach the database. *)
Definition touches_db (a : action) : bool :=
  match a with
  | AInitDatabase | ACloseDB | AExec _ | AExecMax _ _
  | AGetMigrationRecords => true
  | _ => false
  end.

(** What a command closure itself may do: anything but opening or
    closing the database and printing the final line. *)
Definition inner (a : action) : Prop :=
  a ≠ AInitDatabase ∧ a ≠ ACloseDB ∧ a ≠ success_message.

Definition command_names : list string :=
  ["up"; "down"; "new"; "redo"; "status"; "fresh"].

Definition env_file (useTestEnv : bool) : string :=
  if useTestEnv then ".env.test" else ".env".

(** A world in which everything succeeds and two migrations exist. *)
Definition env_ok : Env :=
  {| load_env := λ _, None;
     init_database := None;
     exec := λ _ _, (2, None);
     migration_records := (["001_init.sql"; "002_sites.sql"], None);
     timestamp := "20241101120000";
     write_file := λ _, None |}.

(** The same world, with every migration call failing. *)
Definition env_exec_fails : Env :=
  {| load_env := λ _, None;
     init_database := None;
     exec := λ _ _, (0, Some "database is locked");
     migration_records := ([], Some "database is locked");
     timestamp := "20241101120000";
     write_file := λ _, None |}.

(** The world in which the first migration call of a command succeeds
    and the second fails. *)
Definition env_second_fails : Env :=
  {| load_env := λ _, None;
     init_database := None;
     exec := λ k _, match k with
                    | O => (1, None)
                    | _ => (0, Some "syntax error in migration")
                    end;
     migration_records := ([], None);
     timestamp := "20241101120000";
     write_file := λ _, None |}.

End migrate_cmd.

(** ** The notification hub *)

Module notification.

(** [notification.State], the payload handed to every observer. *)
Record State := mkState {
  Name : string;
  Status : string;
  Message : string;
  UpdatedAt : Z
}.

(** The zero value [State{}]. *)
Definition zero_State : State := mkState "" "" "" 0.

(** The [Observer] interface: [Notify(state) error], a method on a
    pointer receiver, so a call may change the observer. *)
Class Observer (O : Type) := obs_Notify : State → O → O * option string.

(** Modelled from the spec: package [notification] (the type Subject
    with NewSubject, Attach and Notify) is not among the sources; only
    its use in TestNotifierService_Subject is.  Attach appends to the
    observer set; Notify calls every attached observer with the same
    state and gathers the errors of those that fail, going on to the
    remaining observers after a failure. *)
Definition Subject (O : Type) : Type := list O.

Definition NewSubject {O : Type} : Subject O := [].

Definition Attach {O : Type} (o : O) (sub : Subject O) : Subject O :=
  sub ++ [o].

Fixpoint Notify {O : Type} `{Observer O} (state : State)
    (sub : Subject O) : Subject O * list string :=
  match sub with
  | [] => ([], [])
  | o :: rest =>
      let (o', e) := obs_Notify state o in
      let (rest', errs) := Notify state rest in
      (o' :: rest', match e with Some x => x :: errs | None => errs end)
  end.

(** The test double of the services tests. *)
Record mockObserver := mkMock {
  state : State;
  err : option string
}.

Definition newMockObserver (e : option string) : mockObserver :=
  {| state := zero_State; err := e |}.

#[global] Instance mockObserver_Notify : Observer mockObserver :=
  λ st m,
    match err m with
    | Some e => (m, Some e)
    | None => ({| state := st; err := err m |}, None)
    end.

End notification.

(** The state and the observers of TestNotifierService_Subject, with a
    third, succeeding observer attached after the failing one. *)
Definition state_up : notification.State :=
  notification.mkState "test-system" "up" "System is up" 1700000000.

Definition three_mocks : list notification.mockObserver :=
  notification.Attach (notification.newMockObserver None)
    (notification.Attach
       (notification.newMockObserver (Some "notification error"))
       (notification.Attach (notification.newMockObserver None)
          notification.NewSubject)).

(** * Properties *)

(** ** Reasoning principles for the monad *)

Ltac munfold :=
  unfold mbind, M_bind, bind, mret, M_ret, ret, defer, emit, gets, modify,
    store, panic, load in *.

Lemma trace_record e w : trace (record e w) = trace w ++ [e].
Proof. reflexivity. Qed.

Lemma heap_record e w : heap (record e w) = heap w.
Proof. reflexivity. Qed.

Section updateStatus_facts.
Variables (w : World) (l : loc) (s : Site) (status : string) (now : Z).
Hypothesis Hl : heap w !! l = Some s.

(** Writing the status the site already has touches nothing but the
    lock. *)
Lemma updateStatus_same :
  Status s = status →
  updateStatus l status now w =
    Ok tt (set_trace (trace w ++ [EvLock (SiteMu l); EvUnlock (SiteMu l)])
                     w).
Proof.
  intros Hs. unfold updateStatus. munfold. cbn.
  rewrite Hl. rewrite bool_decide_eq_false_2 by (intros H; by apply H).
  unfold record, set_trace; cbn. by rewrite <- app_assoc.
Qed.

(** Writing another status writes both fields, inside the lock. *)
Lemma updateStatus_diff :
  Status s ≠ status →
  updateStatus l status now w =
    Ok tt (mkWorld
             (<[l := set_StatusChangedAt now (set_Status status s)]>
                (heap w))
             (next_loc w) (sites w) (tasks w) (cancelled w) (next_ctx w)
             (trace w ++ [EvLock (SiteMu l); EvWriteStatus l status;
                          EvWriteStatusChangedAt l now;
                          EvUnlock (SiteMu l)])
             (spawned w)).
Proof.
  intros Hs. unfold updateStatus. munfold. cbn.
  rewrite Hl. rewrite bool_decide_eq_true_2 by done. cbn.
  rewrite lookup_insert_eq. cbn. rewrite insert_insert_eq.
  unfold record, set_trace; cbn. by rewrite <- !app_assoc.
Qed.

(** In both cases the call returns, the site at [l] has the status
    written, and nothing but [l]'s record and the trace moved. *)
Lemma updateStatus_post :
  ∃ w' s',
    updateStatus l status now w = Ok tt w' ∧
    heap w' !! l = Some s' ∧ Status s' = status ∧
    Enabled s' = Enabled s ∧ ID s' = ID s ∧ URL s' = URL s ∧
    cancelFunc s' = cancelFunc s ∧ client s' = client s ∧
    sites w' = sites w ∧ tasks w' = tasks w ∧
    cancelled w' = cancelled w ∧
    (∀ l', l' ≠ l → heap w' !! l' = heap w !! l') ∧
    (∃ evs, appended w w' evs).
Proof.
  destruct (decide (Status s = status)) as [Hs|Hs].
  - eexists _, s. rewrite updateStatus_same by done.
    repeat split; try done. by eexists.
  - eexists _, _. rewrite updateStatus_diff by done.
    split; [reflexivity|]. cbn.
    rewrite lookup_insert_eq. repeat split; try done.
    + intros l' Hne. by rewrite lookup_insert_ne.
    + by eexists.
Qed.
End updateStatus_facts.

Lemma bind_ok {A B} (m : M A) (f : A → M B) w a w' :
  m w = Ok a w' → (m ≫= f) w = f a w'.
Proof. intros H. unfold mbind, M_bind, bind. by rewrite H. Qed.

Lemma bind_panic {A B} (m : M A) (f : A → M B) w msg w' :
  m w = Panic msg w' → (m ≫= f) w = Panic msg w'.
Proof. intros H. unfold mbind, M_bind, bind. by rewrite H. Qed.

Lemma load_ok w l s : heap w !! l = Some s → load (Some l) w = Ok s w.
Proof. intros H. unfold load. by rewrite H. Qed.

(** ** The operations that change registry or goroutines, as equations *)

Lemma RegisterSite_fresh (w : World) (l : loc) (s : Site) :
  heap w !! l = Some s → sites w !! ID s = None →
  RegisterSite (Some l) w =
    Ok None
       (mkWorld (<[l := set_cancelFunc (Some (next_ctx w)) s]> (heap w))
          (next_loc w) (<[ID s := l]> (sites w))
          (tasks w) (cancelled w) (S (next_ctx w))
          (trace w ++ [EvLock ManagerMu; EvWriteCancelFunc l (next_ctx w);
                       EvMapInsert (ID s) l; EvGo (next_ctx w) l;
                       EvLog "Monitoring started" (URL s) None;
                       EvUnlock ManagerMu])
          (<[next_ctx w := l]> (spawned w))).
Proof.
  intros Hl Hid. unfold RegisterSite, WithCancel, go. munfold. cbn.
  rewrite Hl. cbn. rewrite Hid. cbn. rewrite lookup_insert_eq. cbn.
  rewrite lookup_insert_eq. cbn.
  unfold record, set_trace; cbn. by rewrite <- !app_assoc.
Qed.

Lemma RevokeSite_known (w : World) (siteID : Z) (l : loc) (s : Site)
    (c : ctx) :
  sites w !! siteID = Some l → heap w !! l = Some s →
  cancelFunc s = Some c →
  RevokeSite siteID w =
    Ok tt
       (mkWorld (heap w) (next_loc w) (delete siteID (sites w)) (tasks w)
          ({[c]} ∪ cancelled w) (next_ctx w)
          (trace w ++ [EvLock ManagerMu; EvCancel c; EvMapDelete siteID;
                       EvLog "Monitoring Stopped" (URL s) None;
                       EvUnlock ManagerMu])
          (spawned w)).
Proof.
  intros Hid Hl Hc. unfold RevokeSite, call_cancel. munfold. cbn.
  rewrite Hid. cbn. rewrite Hl. rewrite Hc. cbn. rewrite Hl.
  unfold record, set_trace; cbn. by rewrite <- !app_assoc.
Qed.

Lemma done_case_eq (w : World) (c : ctx) (l : loc) (s : Site) :
  heap w !! l = Some s →
  done_case c l w =
    Ok tt
       (mkWorld (heap w) (next_loc w) (delete (ID s) (sites w))
          (delete c (tasks w)) (cancelled w) (next_ctx w)
          (trace w ++ [EvLog "Monitoring stopperd" (URL s) None;
                       EvLock ManagerMu; EvMapDelete (ID s);
                       EvUnlock ManagerMu; EvExit c])
          (spawned w)).
Proof.
  intros Hl. unfold done_case. munfold. cbn. rewrite Hl. cbn. rewrite Hl.
  unfold record, set_trace; cbn. by rewrite <- !app_assoc.
Qed.

(** The goroutine's first statement on a positive interval, and on one
    that is not. *)
Lemma start_case_ok (w : World) (c : ctx) (l : loc) (s : Site) :
  heap w !! l = Some s → 0 < Interval s →
  start_case c l w =
    Ok tt
       (mkWorld (heap w) (next_loc w) (sites w) (<[c := l]> (tasks w))
          (cancelled w) (next_ctx w) (trace w) (delete c (spawned w))).
Proof.
  intros Hl Hiv. unfold start_case. munfold. cbn. rewrite Hl.
  by rewrite bool_decide_eq_false_2 by lia.
Qed.

Lemma start_case_panics (w : World) (c : ctx) (l : loc) (s : Site) :
  heap w !! l = Some s → Interval s ≤ 0 →
  start_case c l w = Panic ticker_panic w.
Proof.
  intros Hl Hiv. unfold start_case. munfold. cbn. rewrite Hl.
  by rewrite bool_decide_eq_true_2.
Qed.

(** ** Site *)

(** C10: whatever the id, URL, interval and client configuration, the
    site NewSite returns has its Enabled flag set. *)
Theorem NewSite_enabled (id : Z) (url : string) (interval : Z)
    (config : ClientConfig) :
  Enabled (NewSite id url interval config) = true.
Proof. reflexivity. Qed.

(** C1: one call of Check on a site classifies the outcome of the GET:
    a transport failure sets Status to "error" and returns the wrapped
    error; a response with code >= 400 sets Status to "down" and returns
    an error; a response with code < 400 sets Status to "up" and returns
    nil. *)
Theorem Check_classifies (w : World) (l : loc) (s : Site) (cl : Client)
    (now : Z) :
  heap w !! l = Some s → client s = Some cl →
  (∀ err, ∃ w' s',
      Check (Some l) (TransportFailure err) now w
        = Ok (Some (ConnectionError err)) w' ∧
      heap w' !! l = Some s' ∧ Status s' = statusError) ∧
  (∀ code, 400 ≤ code → ∃ w' s',
      Check (Some l) (Response code) now w
        = Ok (Some (HTTPError code)) w' ∧
      heap w' !! l = Some s' ∧ Status s' = statusDown) ∧
  (∀ code, code < 400 → ∃ w' s',
      Check (Some l) (Response code) now w = Ok None w' ∧
      heap w' !! l = Some s' ∧ Status s' = statusUp).
Proof.
  intros Hl Hc.
  assert (Hl' : heap (record (EvGet (URL s)) w) !! l = Some s) by done.
  repeat split.
  - intros err.
    destruct (updateStatus_post _ l s statusError now Hl')
      as (w' & s' & Hu & Hs' & Hst & _).
    exists w', s'. split; [|done].
    unfold Check. rewrite (bind_ok _ _ _ _ _ (load_ok _ _ _ Hl)), Hc.
    rewrite (bind_ok _ _ w tt (record (EvGet (URL s)) w)) by done.
    by rewrite (bind_ok _ _ _ _ _ Hu).
  - intros code Hcode.
    destruct (updateStatus_post _ l s statusDown now Hl')
      as (w' & s' & Hu & Hs' & Hst & _).
    exists (record EvBodyClose w'), s'. split; [|done].
    unfold Check. rewrite (bind_ok _ _ _ _ _ (load_ok _ _ _ Hl)), Hc.
    rewrite (bind_ok _ _ w tt (record (EvGet (URL s)) w)) by done.
    unfold defer. rewrite bool_decide_eq_true_2 by done.
    by rewrite (bind_ok _ _ _ _ _ Hu).
  - intros code Hcode.
    destruct (updateStatus_post _ l s statusUp now Hl')
      as (w' & s' & Hu & Hs' & Hst & _).
    exists (record EvBodyClose w'), s'. split; [|done].
    unfold Check. rewrite (bind_ok _ _ _ _ _ (load_ok _ _ _ Hl)), Hc.
    rewrite (bind_ok _ _ w tt (record (EvGet (URL s)) w)) by done.
    unfold defer. rewrite bool_decide_eq_false_2 by lia.
    by rewrite (bind_ok _ _ _ _ _ Hu).
Qed.

Lemma Check_classifies_witness :
  (∀ err, ∃ w' s',
      Check (Some 0%nat) (TransportFailure err) 5 world_alloc
        = Ok (Some (ConnectionError err)) w' ∧
      heap w' !! 0%nat = Some s' ∧ Status s' = statusError) ∧
  (∀ code, 400 ≤ code → ∃ w' s',
      Check (Some 0%nat) (Response code) 5 world_alloc
        = Ok (Some (HTTPError code)) w' ∧
      heap w' !! 0%nat = Some s' ∧ Status s' = statusDown) ∧
  (∀ code, code < 400 → ∃ w' s',
      Check (Some 0%nat) (Response code) 5 world_alloc = Ok None w' ∧
      heap w' !! 0%nat = Some s' ∧ Status s' = statusUp).
Proof.
  apply (Check_classifies world_alloc 0%nat site_a
           {| cl_Timeout := 10 * Second;
              cl_Transport := {| tr_MaxIdleConns := 100;
                                 tr_IdleConnTimeout := 90 * Second |} |} 5);
    reflexivity.
Defined.

(** C3: updateStatus writes Status and StatusChangedAt together, between
    taking and releasing the site's own lock: a write of the status the
    site already has leaves the site as it was, a write of another status
    sets both fields; StatusChangedAt is written if and only if Status is,
    and (the clock reading differing from the stored time) its value
    changes if and only if the value of Status changes. *)
Theorem updateStatus_pair (w : World) (l : loc) (s : Site)
    (status : string) (now : Z) :
  heap w !! l = Some s →
  ∃ w' s',
    updateStatus l status now w = Ok tt w' ∧ heap w' !! l = Some s' ∧
    (Status s = status →
       s' = s ∧ appended w w' [EvLock (SiteMu l); EvUnlock (SiteMu l)]) ∧
    (Status s ≠ status →
       Status s' = status ∧ StatusChangedAt s' = now ∧
       appended w w' [EvLock (SiteMu l); EvWriteStatus l status;
                      EvWriteStatusChangedAt l now; EvUnlock (SiteMu l)]) ∧
    (now ≠ StatusChangedAt s →
       (StatusChangedAt s' ≠ StatusChangedAt s ↔ Status s' ≠ Status s)).
Proof.
  intros Hl. destruct (decide (Status s = status)) as [Hs|Hs].
  - eexists _, s. rewrite (updateStatus_same w l s status now Hl Hs).
    split; [reflexivity|]. split; [done|]. split; [done|].
    split; [done|]. intros _. split; intros H; by destruct H.
  - eexists _, _. rewrite (updateStatus_diff w l s status now Hl Hs).
    split; [reflexivity|]. cbn. rewrite lookup_insert_eq.
    split; [reflexivity|]. split; [done|]. split; [done|].
    cbn. intros Hnow. split; intros _; [by intros E; apply Hs|done].
Qed.

Lemma updateStatus_pair_witness :
  ∃ w' s',
    updateStatus 0%nat statusUp 7 world_alloc = Ok tt w' ∧
    heap w' !! 0%nat = Some s' ∧
    (Status site_a = statusUp →
       s' = site_a ∧
       appended world_alloc w'
         [EvLock (SiteMu 0%nat); EvUnlock (SiteMu 0%nat)]) ∧
    (Status site_a ≠ statusUp →
       Status s' = statusUp ∧ StatusChangedAt s' = 7 ∧
       appended world_alloc w'
         [EvLock (SiteMu 0%nat); EvWriteStatus 0%nat statusUp;
          EvWriteStatusChangedAt 0%nat 7; EvUnlock (SiteMu 0%nat)]) ∧
    (7 ≠ StatusChangedAt site_a →
       (StatusChangedAt s' ≠ StatusChangedAt site_a
        ↔ Status s' ≠ Status site_a)).
Proof.
  apply (updateStatus_pair world_alloc 0%nat site_a statusUp 7).
  reflexivity.
Defined.

(** ** Manager *)

(** C2: registering a site whose ID is already in the registry returns
    the "already being monitored" error at once and changes nothing: the
    registry (contents and size), the heap, the goroutines and the
    cancelled contexts are as before; only the manager's lock was taken
    and released. *)
Theorem RegisterSite_duplicate (w : World) (l l0 : loc) (s : Site) :
  heap w !! l = Some s → sites w !! ID s = Some l0 →
  ∃ w',
    RegisterSite (Some l) w = Ok (Some (AlreadyMonitored (URL s))) w' ∧
    sites w' = sites w ∧ size (sites w') = size (sites w) ∧
    tasks w' = tasks w ∧ heap w' = heap w ∧
    cancelled w' = cancelled w ∧ next_ctx w' = next_ctx w ∧
    appended w w' [EvLock ManagerMu; EvUnlock ManagerMu].
Proof.
  intros Hl Hid. eexists. split.
  - unfold RegisterSite. munfold. cbn. rewrite Hl. cbn. rewrite Hid.
    reflexivity.
  - cbn. repeat split; try done.
    unfold appended; cbn. by rewrite <- app_assoc.
Qed.

Lemma RegisterSite_duplicate_witness :
  ∃ w',
    RegisterSite (Some 0%nat) world_reg
      = Ok (Some (AlreadyMonitored "http://a.test")) w' ∧
    sites w' = sites world_reg ∧
    size (sites w') = size (sites world_reg) ∧
    tasks w' = tasks world_reg ∧ heap w' = heap world_reg ∧
    cancelled w' = cancelled world_reg ∧
    next_ctx w' = next_ctx world_reg ∧
    appended world_reg w' [EvLock ManagerMu; EvUnlock ManagerMu].
Proof.
  apply (RegisterSite_duplicate world_reg 0%nat 0%nat
           (set_cancelFunc (Some 0%nat) site_a)); reflexivity.
Defined.

(** C4: on an ID that is not in the registry RevokeSite does not return
    normally: the log call of the [else] arm reads [site.URL] through the
    nil pointer the failed lookup produced, and the call panics (the
    deferred unlock still runs; the registry itself is untouched). *)
Theorem RevokeSite_unknown_panics (w : World) (siteID : Z) :
  sites w !! siteID = None →
  RevokeSite siteID w =
    Panic nil_deref
      (set_trace (trace w ++ [EvLock ManagerMu; EvUnlock ManagerMu]) w).
Proof.
  intros Hid. unfold RevokeSite. munfold. cbn. rewrite Hid. cbn.
  unfold record, set_trace; cbn. by rewrite <- app_assoc.
Qed.

Lemma RevokeSite_unknown_panics_witness :
  RevokeSite 1 NewManager =
    Panic nil_deref
      (set_trace (trace NewManager ++ [EvLock ManagerMu; EvUnlock ManagerMu])
                 NewManager).
Proof. apply (RevokeSite_unknown_panics NewManager 1). reflexivity. Defined.




(** Check on a live site with a client returns; its first event is the
    GET, and it leaves registry and goroutines alone. *)
Lemma Check_post (w : World) (l : loc) (s : Site) (cl : Client)
    (r : HTTPResult) (now : Z) :
  heap w !! l = Some s → client s = Some cl →
  ∃ e w' s' evs,
    Check (Some l) r now w = Ok e w' ∧ heap w' !! l = Some s' ∧
    URL s' = URL s ∧ Enabled s' = Enabled s ∧
    appended w w' (EvGet (URL s) :: evs) ∧
    tasks w' = tasks w ∧ sites w' = sites w ∧ cancelled w' = cancelled w.
Proof.
  intros Hl Hc.
  assert (Hl' : heap (record (EvGet (URL s)) w) !! l = Some s) by done.
  assert (Hpost : ∀ st, ∃ w' s' evs,
             updateStatus l st now (record (EvGet (URL s)) w) = Ok tt w' ∧
             heap w' !! l = Some s' ∧ URL s' = URL s ∧
             Enabled s' = Enabled s ∧
             appended w w' (EvGet (URL s) :: evs) ∧
             tasks w' = tasks w ∧ sites w' = sites w ∧
             cancelled w' = cancelled w).
  { intros st.
    destruct (updateStatus_post _ l s st now Hl')
      as (w' & s' & Hu & Hs' & _ & He & _ & Hurl & _ & _ & Hsi & Hta & Hca
          & _ & evs & Hev).
    exists w', s', evs. repeat split; try done.
    unfold appended in *. rewrite Hev. cbn. by rewrite <- app_assoc. }
  unfold Check. rewrite (bind_ok _ _ _ _ _ (load_ok _ _ _ Hl)), Hc.
  rewrite (bind_ok _ _ w tt (record (EvGet (URL s)) w)) by done.
  destruct r as [err|code].
  - destruct (Hpost statusError) as (w' & s' & evs & Hu & H).
    rewrite (bind_ok _ _ _ _ _ Hu). by eexists _, w', s', evs.
  - unfold defer. case_bool_decide.
    + destruct (Hpost statusDown)
        as (w' & s' & evs & Hu & Hs' & Hurl & He & Hev & Hrest).
      rewrite (bind_ok _ _ _ _ _ Hu).
      eexists _, _, s', (evs ++ [EvBodyClose]).
      split; [reflexivity|]. repeat split; try done; try apply Hrest.
      unfold appended in *. cbn. rewrite Hev. cbn.
      by rewrite <- app_assoc.
    + destruct (Hpost statusUp)
        as (w' & s' & evs & Hu & Hs' & Hurl & He & Hev & Hrest).
      rewrite (bind_ok _ _ _ _ _ Hu).
      eexists _, _, s', (evs ++ [EvBodyClose]).
      split; [reflexivity|]. repeat split; try done; try apply Hrest.
      unfold appended in *. cbn. rewrite Hev. cbn.
      by rewrite <- app_assoc.
Qed.

Lemma updateStatus_full (w : World) (l : loc) (s : Site) (status : string)
    (now : Z) :
  heap w !! l = Some s →
  ∃ w' evs,
    updateStatus l status now w = Ok tt w' ∧
    heap w' = <[l := with_status status now s]> (heap w) ∧
    sites w' = sites w ∧ tasks w' = tasks w ∧
    cancelled w' = cancelled w ∧ next_ctx w' = next_ctx w ∧
    next_loc w' = next_loc w ∧ appended w w' evs ∧ no_get evs.
Proof.
  intros Hl. unfold with_status.
  destruct (decide (Status s = status)) as [Hs|Hs].
  - eexists _, _. rewrite (updateStatus_same w l s status now Hl Hs).
    split; [reflexivity|]. cbn. rewrite insert_id by done.
    repeat split.
    intros url Hin. repeat (apply elem_of_cons in Hin as [Hin|Hin]; [done|]).
    by apply elem_of_nil in Hin.
  - eexists _, _. rewrite (updateStatus_diff w l s status now Hl Hs).
    split; [reflexivity|]. cbn. repeat split.
    intros url Hin. repeat (apply elem_of_cons in Hin as [Hin|Hin]; [done|]).
    by apply elem_of_nil in Hin.
Qed.

Lemma Check_full (w : World) (l : loc) (s : Site) (cl : Client)
    (r : HTTPResult) (now : Z) :
  heap w !! l = Some s → client s = Some cl →
  ∃ w' evs,
    Check (Some l) r now w = Ok (check_error r) w' ∧
    heap w' = <[l := with_status (classify r) now s]> (heap w) ∧
    sites w' = sites w ∧ tasks w' = tasks w ∧
    cancelled w' = cancelled w ∧ next_ctx w' = next_ctx w ∧
    next_loc w' = next_loc w ∧
    appended w w' (EvGet (URL s) :: evs) ∧ no_get evs.
Proof.
  intros Hl Hc.
  assert (Hl' : heap (record (EvGet (URL s)) w) !! l = Some s) by done.
  destruct (updateStatus_full _ l s (classify r) now Hl')
    as (w' & evs & Hu & Hh & Hsi & Hta & Hca & Hnc & Hnl & Hev & Hng).
  unfold appended in Hev. cbn in Hev. rewrite <- app_assoc in Hev.
  unfold Check. rewrite (bind_ok _ _ _ _ _ (load_ok _ _ _ Hl)), Hc.
  rewrite (bind_ok _ _ w tt (record (EvGet (URL s)) w)) by done.
  destruct r as [err|code]; cbn [classify check_error] in *.
  - rewrite (bind_ok _ _ _ _ _ Hu). by eexists w', evs.
  - unfold defer. case_bool_decide.
    + rewrite (bind_ok _ _ _ _ _ Hu).
      eexists _, (evs ++ [EvBodyClose]). split; [reflexivity|].
      cbn. repeat split; try done.
      * unfold appended. cbn. rewrite Hev. cbn. by rewrite <- app_assoc.
      * intros url [Hin|Hin]%elem_of_app; [by apply (Hng url)|].
        apply elem_of_cons in Hin as [Hin|Hin]; [done|].
        by apply elem_of_nil in Hin.
    + rewrite (bind_ok _ _ _ _ _ Hu).
      eexists _, (evs ++ [EvBodyClose]). split; [reflexivity|].
      cbn. repeat split; try done.
      * unfold appended. cbn. rewrite Hev. cbn. by rewrite <- app_assoc.
      * intros url [Hin|Hin]%elem_of_app; [by apply (Hng url)|].
        apply elem_of_cons in Hin as [Hin|Hin]; [done|].
        by apply elem_of_nil in Hin.
Qed.

Lemma with_status_Status status now s :
  Status (with_status status now s) = status.
Proof. unfold with_status. by case_decide. Qed.

Lemma with_status_idem status now now' s :
  with_status status now' (with_status status now s)
  = with_status status now s.
Proof.
  unfold with_status at 1. rewrite decide_True; [done|].
  apply with_status_Status.
Qed.

(** A tick of a goroutine whose site is disabled changes nothing. *)
Lemma tick_disabled (w : World) (c : ctx) (l : loc) (s : Site)
    (r : HTTPResult) (now : Z) :
  tasks w !! c = Some l → heap w !! l = Some s → Enabled s = false →
  step (OpTick c r now) w = Ok tt w.
Proof.
  intros Ht Hl He. unfold step, tick_case. munfold. cbn.
  rewrite Ht, Hl, He. reflexivity.
Qed.

(** The world after a flag flip on the site at [l]. *)
Lemma EnableSite_known (w : World) (siteID : Z) (l : loc) (s : Site) :
  sites w !! siteID = Some l → heap w !! l = Some s →
  EnableSite siteID w =
    Ok tt (mkWorld (<[l := set_Enabled true s]> (heap w)) (next_loc w)
             (sites w) (tasks w) (cancelled w) (next_ctx w)
             (trace w ++ [EvLock ManagerMu; EvWriteEnabled l true;
                          EvLog "Site monitoring enabled" (URL s) None;
                          EvUnlock ManagerMu])
             (spawned w)).
Proof.
  intros Hid Hl. unfold EnableSite. munfold. cbn. rewrite Hid. cbn.
  rewrite Hl. cbn. rewrite lookup_insert_eq.
  unfold record, set_trace; cbn. by rewrite <- !app_assoc.
Qed.

Lemma DisableSite_known (w : World) (siteID : Z) (l : loc) (s : Site) :
  sites w !! siteID = Some l → heap w !! l = Some s →
  DisableSite siteID w =
    Ok tt (mkWorld (<[l := set_Enabled false s]> (heap w)) (next_loc w)
             (sites w) (tasks w) (cancelled w) (next_ctx w)
             (trace w ++ [EvLock ManagerMu; EvWriteEnabled l false;
                          EvLog "Site monitoring disabled" (URL s) None;
                          EvUnlock ManagerMu])
             (spawned w)).
Proof.
  intros Hid Hl. unfold DisableSite. munfold. cbn. rewrite Hid. cbn.
  rewrite Hl. cbn. rewrite lookup_insert_eq.
  unfold record, set_trace; cbn. by rewrite <- !app_assoc.
Qed.

Lemma EnableSite_unknown (w : World) (siteID : Z) :
  sites w !! siteID = None →
  EnableSite siteID w =
    Ok tt (set_trace (trace w ++ [EvLock ManagerMu; EvUnlock ManagerMu]) w).
Proof.
  intros Hid. unfold EnableSite. munfold. cbn. rewrite Hid.
  unfold record, set_trace; cbn. by rewrite <- !app_assoc.
Qed.

Lemma DisableSite_unknown (w : World) (siteID : Z) :
  sites w !! siteID = None →
  DisableSite siteID w =
    Ok tt (set_trace (trace w ++ [EvLock ManagerMu; EvUnlock ManagerMu]) w).
Proof.
  intros Hid. unfold DisableSite. munfold. cbn. rewrite Hid.
  unfold record, set_trace; cbn. by rewrite <- !app_assoc.
Qed.

(** C6: while a registered site is disabled, no wake of its polling
    goroutine runs Check: any number of ticks leaves the world exactly as
    it was (no GET is issued, no status is written, the goroutine stays
    in its loop).  After EnableSite, with no new registration, the next
    tick runs Check: what the tick does is what Check does on that site
    (one GET, the status of the outcome written), followed only by the
    log line of a failed check. *)
Theorem disabled_ticks_skip_check (w : World) (siteID : Z) (c : ctx)
    (l : loc) (s : Site) (cl : Client) :
  sites w !! siteID = Some l → tasks w !! c = Some l →
  heap w !! l = Some s → client s = Some cl → 0 < Interval s →
  Enabled s = false →
  (∀ ts, run (ticks_of c ts) w = Ok tt w) ∧
  (∃ w1,
     EnableSite siteID w = Ok tt w1 ∧
     tasks w1 = tasks w ∧ spawned w1 = spawned w ∧ sites w1 = sites w ∧
     ∀ r now, ∃ wc w2 s2 evs,
       Check (Some l) r now w1 = Ok (check_error r) wc ∧
       step (OpTick c r now) w1 = Ok tt w2 ∧
       heap w2 = heap wc ∧
       heap w2 !! l = Some s2 ∧ Status s2 = classify r ∧
       Enabled s2 = true ∧
       appended w1 wc (EvGet (URL s) :: evs) ∧ no_get evs ∧
       appended wc w2
         match check_error r with
         | Some e => [EvLog "Site check failed" (URL s) (Some e)]
         | None => []
         end ∧
       tasks w2 = tasks w ∧ sites w2 = sites w).
Proof.
  intros Hid Ht Hl Hc _ He. split.
  - induction ts as [|[r now] ts IH]; [reflexivity|].
    cbn. rewrite (bind_ok _ _ w tt w); [exact IH|].
    by apply (tick_disabled w c l s).
  - eexists. split; [by apply EnableSite_known|].
    match goal with |- tasks ?w1 = _ ∧ _ => set (W := w1) end.
    split; [done|]. split; [done|]. split; [done|]. intros r now.
    assert (HlW : heap W !! l = Some (set_Enabled true s))
      by (subst W; cbn; by rewrite lookup_insert_eq).
    destruct (Check_full W l _ cl r now HlW Hc)
      as (wc & evs & HC & Hh & Hsi & Hta & Hca & _ & _ & Hev & Hng).
    assert (Hlc : heap wc !! l
                  = Some (with_status (classify r) now (set_Enabled true s)))
      by (by rewrite Hh, lookup_insert_eq).
    assert (HU : URL (with_status (classify r) now (set_Enabled true s))
                 = URL s)
      by (unfold with_status; by case_decide).
    assert (HE : Enabled (with_status (classify r) now (set_Enabled true s))
                 = true)
      by (unfold with_status; by case_decide).
    assert (Hstep : step (OpTick c r now) W
              = (err ← Check (Some l) r now;
                 match err with
                 | Some e =>
                     s1 ← load (Some l);
                     emit (EvLog "Site check failed" (URL s1) (Some e))
                 | None => mret tt
                 end) W).
    { cbn [step]. rewrite (bind_ok _ _ W (tasks W) W) by done.
      replace (tasks W !! c) with (Some l) by (subst W; by cbn).
      unfold tick_case. by rewrite (bind_ok _ _ _ _ _ (load_ok _ _ _ HlW)). }
    rewrite Hstep, (bind_ok _ _ _ _ _ HC).
    exists wc. destruct (check_error r) as [e|].
    + rewrite (bind_ok _ _ _ _ _ (load_ok _ _ _ Hlc)), HU.
      eexists _, _, evs. split; [done|]. split; [reflexivity|]. cbn.
      split; [done|]. split; [exact Hlc|].
      split; [apply with_status_Status|]. split; [exact HE|].
      split; [exact Hev|]. split; [exact Hng|]. split; [done|].
      split; [by rewrite Hta|by rewrite Hsi].
    + eexists wc, _, evs. split; [done|]. split; [reflexivity|].
      split; [done|]. split; [exact Hlc|].
      split; [apply with_status_Status|]. split; [exact HE|].
      split; [exact Hev|]. split; [exact Hng|].
      split; [unfold appended; by rewrite app_nil_r|].
      split; [by rewrite Hta|by rewrite Hsi].
Qed.

Lemma disabled_ticks_skip_check_witness :
  let w := world_of (DisableSite 1 world_reg) in
  let s := set_Enabled false (set_cancelFunc (Some 0%nat) site_a) in
  (∀ ts, run (ticks_of 0%nat ts) w = Ok tt w) ∧
  (∃ w1,
     EnableSite 1 w = Ok tt w1 ∧
     tasks w1 = tasks w ∧ spawned w1 = spawned w ∧ sites w1 = sites w ∧
     ∀ r now, ∃ wc w2 s2 evs,
       Check (Some 0%nat) r now w1 = Ok (check_error r) wc ∧
       step (OpTick 0%nat r now) w1 = Ok tt w2 ∧
       heap w2 = heap wc ∧
       heap w2 !! 0%nat = Some s2 ∧ Status s2 = classify r ∧
       Enabled s2 = true ∧
       appended w1 wc (EvGet (URL s) :: evs) ∧ no_get evs ∧
       appended wc w2
         match check_error r with
         | Some e => [EvLog "Site check failed" (URL s) (Some e)]
         | None => []
         end ∧
       tasks w2 = tasks w ∧ sites w2 = sites w).
Proof.
  intros w s.
  apply (disabled_ticks_skip_check w 1 0%nat 0%nat s
           {| cl_Timeout := 10 * Second;
              cl_Transport := {| tr_MaxIdleConns := 100;
                                 tr_IdleConnTimeout := 90 * Second |} |});
    by vm_compute.
Defined.

(** C8, as the claim states it, fails: a flag flip on a registered site
    takes the manager's (registry) lock and never the site's own lock,
    and on an unknown ID nothing is logged. *)
Lemma flag_flip_locks_counterexample :
  (∃ w', EnableSite 1 world_reg = Ok tt w' ∧
         appended world_reg w'
           [EvLock ManagerMu; EvWriteEnabled 0%nat true;
            EvLog "Site monitoring enabled" "http://a.test" None;
            EvUnlock ManagerMu]) ∧
  (∃ w', DisableSite 2 world_reg = Ok tt w' ∧
         appended world_reg w' [EvLock ManagerMu; EvUnlock ManagerMu]).
Proof.
  split; eexists; (split; [vm_compute; reflexivity|reflexivity]).
Qed.

(** C8, amended: for every registry and every ID, EnableSite and
    DisableSite hold the manager's registry lock and never take the
    site's own lock.  If the ID is registered they set the Enabled flag
    of its site to true, respectively false; if it is not (in
    particular on a fresh manager) they take and release the registry
    lock and do nothing else: nothing is logged and nothing changes. *)
Theorem flag_flip_under_registry_lock (w : World) (siteID : Z) :
  (∀ l s,
     sites w !! siteID = Some l → heap w !! l = Some s →
     (∃ w', EnableSite siteID w = Ok tt w' ∧
            heap w' = <[l := set_Enabled true s]> (heap w) ∧
            sites w' = sites w ∧ tasks w' = tasks w ∧
            spawned w' = spawned w ∧
            appended w w' [EvLock ManagerMu; EvWriteEnabled l true;
                           EvLog "Site monitoring enabled" (URL s) None;
                           EvUnlock ManagerMu]) ∧
     (∃ w', DisableSite siteID w = Ok tt w' ∧
            heap w' = <[l := set_Enabled false s]> (heap w) ∧
            sites w' = sites w ∧ tasks w' = tasks w ∧
            spawned w' = spawned w ∧
            appended w w' [EvLock ManagerMu; EvWriteEnabled l false;
                           EvLog "Site monitoring disabled" (URL s) None;
                           EvUnlock ManagerMu])) ∧
  (sites w !! siteID = None →
     (∃ w', EnableSite siteID w = Ok tt w' ∧
            heap w' = heap w ∧ sites w' = sites w ∧ tasks w' = tasks w ∧
            spawned w' = spawned w ∧ cancelled w' = cancelled w ∧
            appended w w' [EvLock ManagerMu; EvUnlock ManagerMu]) ∧
     (∃ w', DisableSite siteID w = Ok tt w' ∧
            heap w' = heap w ∧ sites w' = sites w ∧ tasks w' = tasks w ∧
            spawned w' = spawned w ∧ cancelled w' = cancelled w ∧
            appended w w' [EvLock ManagerMu; EvUnlock ManagerMu])).
Proof.
  split.
  - intros l s Hid Hl. split.
    + eexists. split; [by apply EnableSite_known|]. by repeat split.
    + eexists. split; [by apply DisableSite_known|]. by repeat split.
  - intros Hid. split.
    + eexists. split; [by apply EnableSite_unknown|]. by repeat split.
    + eexists. split; [by apply DisableSite_unknown|]. by repeat split.
Qed.

Lemma flag_flip_under_registry_lock_witness :
  let s := set_cancelFunc (Some 0%nat) site_a in
  ((∃ w', EnableSite 1 world_reg = Ok tt w' ∧
          heap w' = <[0%nat := set_Enabled true s]> (heap world_reg) ∧
          sites w' = sites world_reg ∧ tasks w' = tasks world_reg ∧
          spawned w' = spawned world_reg ∧
          appended world_reg w'
            [EvLock ManagerMu; EvWriteEnabled 0%nat true;
             EvLog "Site monitoring enabled" (URL s) None;
             EvUnlock ManagerMu]) ∧
   (∃ w', DisableSite 1 world_reg = Ok tt w' ∧
          heap w' = <[0%nat := set_Enabled false s]> (heap world_reg) ∧
          sites w' = sites world_reg ∧ tasks w' = tasks world_reg ∧
          spawned w' = spawned world_reg ∧
          appended world_reg w'
            [EvLock ManagerMu; EvWriteEnabled 0%nat false;
             EvLog "Site monitoring disabled" (URL s) None;
             EvUnlock ManagerMu])) ∧
  ((∃ w', EnableSite 1 NewManager = Ok tt w' ∧
          heap w' = heap NewManager ∧ sites w' = sites NewManager ∧
          tasks w' = tasks NewManager ∧
          spawned w' = spawned NewManager ∧
          cancelled w' = cancelled NewManager ∧
          appended NewManager w' [EvLock ManagerMu; EvUnlock ManagerMu]) ∧
   (∃ w', DisableSite 1 NewManager = Ok tt w' ∧
          heap w' = heap NewManager ∧ sites w' = sites NewManager ∧
          tasks w' = tasks NewManager ∧
          spawned w' = spawned NewManager ∧
          cancelled w' = cancelled NewManager ∧
          appended NewManager w' [EvLock ManagerMu; EvUnlock ManagerMu])).
Proof.
  intros s. split.
  - destruct (flag_flip_under_registry_lock world_reg 1) as [Hknown _].
    apply (Hknown 0%nat s); by vm_compute.
  - destruct (flag_flip_under_registry_lock NewManager 1) as [_ Hunknown].
    apply Hunknown. reflexivity.
Defined.

(** ** The status invariant *)

Lemma preserves_bind {A B} (m : M A) (f : A → M B) :
  preserves m → (∀ a, preserves (f a)) → preserves (m ≫= f).
Proof.
  intros Hm Hf w Hw. specialize (Hm w Hw).
  unfold mbind, M_bind, bind. destruct (m w) as [a w'|msg w']; [|done].
  by apply Hf.
Qed.

Lemma preserves_load_bind {B} (p : ptr) (f : Site → M B) :
  (∀ s, valid_status (Status s) → preserves (f s)) →
  preserves (load p ≫= f).
Proof.
  intros Hf w Hw. unfold mbind, M_bind, bind, load.
  destruct p as [l|]; [|done].
  destruct (heap w !! l) as [s|] eqn:Hl; [|done].
  apply Hf; [by apply (Hw l)|done].
Qed.

Lemma preserves_defer {A} (e : event) (m : M A) :
  preserves m → preserves (defer (record e) m).
Proof.
  intros Hm w Hw. specialize (Hm w Hw). unfold defer.
  by destruct (m w).
Qed.

Lemma preserves_mret {A} (a : A) : preserves (mret a).
Proof. by intros w Hw. Qed.

Lemma preserves_panic {A} msg : preserves (@panic A msg).
Proof. by intros w Hw. Qed.

Lemma preserves_emit e : preserves (emit e).
Proof. by intros w Hw. Qed.

Lemma preserves_gets {A} (f : World → A) : preserves (gets f).
Proof. by intros w Hw. Qed.

Lemma preserves_modify (f : World → World) :
  (∀ w, heap (f w) = heap w) → preserves (modify f).
Proof.
  intros Hf w Hw l s. cbn. rewrite Hf. apply Hw.
Qed.

Lemma preserves_store l s :
  valid_status (Status s) → preserves (store l s).
Proof.
  intros Hs w Hw l' s'. cbn. destruct (decide (l' = l)) as [->|Hne].
  - rewrite lookup_insert_eq. by intros [= <-].
  - rewrite lookup_insert_ne by done. apply Hw.
Qed.

Lemma preserves_alloc s : valid_status (Status s) → preserves (alloc s).
Proof.
  intros Hs w Hw l' s'. cbn.
  destruct (decide (l' = next_loc w)) as [->|Hne].
  - rewrite lookup_insert_eq. by intros [= <-].
  - rewrite lookup_insert_ne by done. apply Hw.
Qed.

Lemma preserves_WithCancel : preserves WithCancel.
Proof. by intros w Hw. Qed.

Create HintDb pres.
#[local] Hint Resolve preserves_mret preserves_panic preserves_emit
  preserves_gets preserves_store preserves_alloc preserves_WithCancel
  preserves_defer : pres.

Ltac pres_step :=
  first
    [ solve [eauto with pres]
    | apply preserves_load_bind; intros ? ?
    | apply preserves_bind; [|intros ?]
    | apply preserves_defer
    | apply preserves_modify; by intros
    | case_match ].

Lemma preserves_updateStatus l status now :
  valid_status status → preserves (updateStatus l status now).
Proof. intros Hst. unfold updateStatus. repeat pres_step. Qed.

Lemma preserves_Check p r now : preserves (Check p r now).
Proof.
  unfold Check.
  repeat first
    [ apply preserves_updateStatus; unfold valid_status; by auto
    | pres_step ].
Qed.

Ltac pres := repeat first [ apply preserves_Check | pres_step ].

Lemma preserves_step o : preserves (step o).
Proof.
  destruct o; unfold step.
  - pres. apply preserves_alloc. by left.
  - pres.
  - unfold RegisterSite, go. pres.
  - unfold RevokeSite, call_cancel. pres.
  - unfold EnableSite. pres.
  - unfold DisableSite. pres.
  - unfold start_case. pres.
  - unfold tick_case. pres.
  - unfold done_case. pres.
Qed.

(** C9, as the claim states it, fails: the site NewSite builds has the
    empty string as its Status, which is none of the four constants. *)
Lemma NewSite_status_counterexample :
  ∃ w', run [OpNewSite 1 "http://a.test" (10 * Second) DefaultClientConfig]
            NewManager = Ok tt w' ∧
        heap w' !! 0%nat = Some site_a ∧
        Status site_a ≠ statusUp ∧ Status site_a ≠ statusDown ∧
        Status site_a ≠ statusError ∧ Status site_a ≠ statusPaused.
Proof.
  eexists. split; [vm_compute; reflexivity|].
  split; [reflexivity|]. by repeat split.
Qed.

(** C9, amended: after any sequence of site constructions, Check calls,
    registrations, revocations, flag flips and goroutine steps, starting
    from an empty manager, the Status of every site is the empty string
    (never checked yet) or one of "up", "down" and "error". *)
Theorem status_always_valid (os : list op) :
  statuses_valid (world_of (run os NewManager)).
Proof.
  assert (H : ∀ os, preserves (run os)).
  { clear os. induction os as [|o os IH]; cbn.
    - apply preserves_mret.
    - apply preserves_bind; [apply preserves_step|by intros]. }
  apply H. intros l s Hl. cbn in Hl. by rewrite lookup_empty in Hl.
Qed.

(** ** Notification fan-out *)

Section fan_out.
Import notification.
Context {O : Type} `{Observer O}.

Lemma Notify_observers (st : State) (obs : list O) :
  (Notify st obs).1 = map (λ o, (obs_Notify st o).1) obs.
Proof.
  induction obs as [|o obs IH]; [done|]. cbn.
  destruct (obs_Notify st o) as [o' e]. destruct (Notify st obs).
  cbn in *. by rewrite IH.
Qed.

Lemma Notify_errors (st : State) (obs : list O) :
  (Notify st obs).2 = omap (λ o, (obs_Notify st o).2) obs.
Proof.
  induction obs as [|o obs IH]; [done|]. cbn.
  destruct (obs_Notify st o) as [o' e]. destruct (Notify st obs).
  cbn in *. rewrite IH. by destruct e.
Qed.

Lemma Notify_no_error_iff (st : State) (obs : list O) :
  (Notify st obs).2 = [] ↔ Forall (λ o, (obs_Notify st o).2 = None) obs.
Proof.
  rewrite Notify_errors. induction obs as [|o obs IH]; cbn.
  - split; [constructor|done].
  - destruct ((obs_Notify st o).2) eqn:E.
    + split; [done|]. intros HF. inversion HF; congruence.
    + rewrite IH. split.
      * intros HF. by constructor.
      * intros HF. by inversion HF.
Qed.

Lemma Notify_error_count (st : State) (obs : list O) :
  length (Notify st obs).2 =
    length (filter (λ o, is_Some (obs_Notify st o).2) obs).
Proof.
  rewrite Notify_errors. induction obs as [|o obs IH]; [done|].
  rewrite filter_cons. cbn [omap list_omap].
  destruct ((obs_Notify st o).2) eqn:E.
  - rewrite decide_True by by eexists. cbn. by rewrite IH.
  - rewrite decide_False by by intros [? ?]. exact IH.
Qed.
End fan_out.

Section fan_out_claim.
  Import notification.

(** C7: Notify calls every attached observer with the same state (the
    observers afterwards are the results of those calls), returns the
    errors of exactly the observers that failed, a failure not keeping
    the later observers from being called, and returns the empty list
    exactly when every observer succeeded; with three observers of which
    exactly one fails the list has one element and each succeeding
    observer holds the result of its call, which for the mock observer of
    the tests is the state itself. *)
Theorem Notify_best_effort {O : Type} `{Observer O} (st : State)
    (obs : list O) :
  (Notify st obs).1 = map (λ o, (obs_Notify st o).1) obs ∧
  (Notify st obs).2 = omap (λ o, (obs_Notify st o).2) obs ∧
  ((Notify st obs).2 = [] ↔ Forall (λ o, (obs_Notify st o).2 = None) obs) ∧
  (length obs = 3%nat →
   length (filter (λ o, is_Some (obs_Notify st o).2) obs) = 1%nat →
   length (Notify st obs).2 = 1%nat ∧
   ∀ i o, obs !! i = Some o → (obs_Notify st o).2 = None →
          (Notify st obs).1 !! i = Some (obs_Notify st o).1) ∧
  (∀ (ms : list mockObserver) i m,
     ms !! i = Some m → err m = None →
     (Notify st ms).1 !! i = Some {| state := st; err := None |}).
Proof.
  split; [apply Notify_observers|]. split; [apply Notify_errors|].
  split; [apply Notify_no_error_iff|]. split.
  - intros _ Hone. split; [by rewrite Notify_error_count|].
    intros i o Hi _. rewrite Notify_observers, list_lookup_fmap, Hi.
    reflexivity.
  - intros ms i m Hi Hm. rewrite Notify_observers, list_lookup_fmap, Hi.
    cbn. unfold obs_Notify, mockObserver_Notify. by rewrite Hm.
Qed.

Lemma Notify_best_effort_witness :
  length three_mocks = 3%nat ∧
  length (filter (λ o, is_Some (obs_Notify state_up o).2) three_mocks)
    = 1%nat ∧
  length (Notify state_up three_mocks).2 = 1%nat ∧
  (Notify state_up three_mocks).1 !! 0%nat
    = Some {| state := state_up; err := None |} ∧
  (Notify state_up three_mocks).1 !! 2%nat
    = Some {| state := state_up; err := None |}.
Proof.
  destruct (Notify_best_effort state_up three_mocks)
    as (_ & _ & _ & H3 & Hm).
  split; [reflexivity|]. split; [reflexivity|].
  split; [apply H3; reflexivity|].
  split; [apply (Hm three_mocks 0%nat (newMockObserver None)); reflexivity|].
  apply (Hm three_mocks 2%nat (newMockObserver None)); reflexivity.
Defined.
End fan_out_claim.

(** ** Frames and the registry invariant *)

Lemma site_agree_refl s : site_agree s s.
Proof. by repeat split. Qed.

Lemma site_agree_trans s1 s2 s3 :
  site_agree s1 s2 → site_agree s2 s3 → site_agree s1 s3.
Proof.
  intros (?&?&?&?&?) (?&?&?&?&?). repeat split; congruence.
Qed.

Lemma frame_refl w : frame w w.
Proof.
  repeat split. intros l. destruct (heap w !! l); [apply site_agree_refl|done].
Qed.

Lemma frame_trans w1 w2 w3 : frame w1 w2 → frame w2 w3 → frame w1 w3.
Proof.
  intros (?&?&?&?&?&?&H12) (?&?&?&?&?&?&H23).
  repeat split; try congruence. intros l.
  specialize (H12 l). specialize (H23 l).
  destruct (heap w1 !! l), (heap w2 !! l), (heap w3 !! l); try done.
  by eapply site_agree_trans.
Qed.

Lemma frame_same w w' :
  heap w' = heap w → sites w' = sites w → tasks w' = tasks w →
  spawned w' = spawned w →
  cancelled w' = cancelled w → next_ctx w' = next_ctx w →
  next_loc w' = next_loc w → frame w w'.
Proof.
  intros Hh ? ? ? ? ? ?. repeat split; try done. intros l. rewrite Hh.
  destruct (heap w !! l); [apply site_agree_refl|done].
Qed.

Lemma frame_set_trace t w : frame w (set_trace t w).
Proof. by apply frame_same. Qed.

(** Rewriting one site by a record that agrees with the old one. *)
Lemma frame_store w l s s' t :
  heap w !! l = Some s → site_agree s s' →
  frame w (mkWorld (<[l := s']> (heap w)) (next_loc w) (sites w) (tasks w)
                   (cancelled w) (next_ctx w) t (spawned w)).
Proof.
  intros Hl Ha. repeat split. intros l'. cbn.
  destruct (decide (l' = l)) as [->|Hne].
  - by rewrite lookup_insert_eq, Hl.
  - rewrite lookup_insert_ne by done.
    destruct (heap w !! l'); [apply site_agree_refl|done].
Qed.

Lemma frames_bind {A B} (m : M A) (f : A → M B) :
  frames m → (∀ a, frames (f a)) → frames (m ≫= f).
Proof.
  intros Hm Hf w. specialize (Hm w). unfold mbind, M_bind, bind.
  destruct (m w) as [a w'|msg w']; [|done].
  eapply frame_trans; [exact Hm|apply Hf].
Qed.

Lemma frames_defer {A} (e : event) (m : M A) :
  frames m → frames (defer (record e) m).
Proof.
  intros Hm w. specialize (Hm w). unfold defer.
  destruct (m w); cbn in *;
    (eapply frame_trans; [exact Hm|apply frame_set_trace]).
Qed.

Lemma frames_mret {A} (a : A) : frames (mret a).
Proof. intros w. apply frame_refl. Qed.

Lemma frames_panic {A} msg : frames (@panic A msg).
Proof. intros w. apply frame_refl. Qed.

Lemma frames_emit e : frames (emit e).
Proof. intros w. apply frame_set_trace. Qed.

Lemma frames_gets {A} (f : World → A) : frames (gets f).
Proof. intros w. apply frame_refl. Qed.

Lemma frames_load p : frames (load p).
Proof.
  intros w. unfold load. destruct p as [l|]; [|apply frame_refl].
  destruct (heap w !! l); apply frame_refl.
Qed.

Lemma frames_updateStatus l status now : frames (updateStatus l status now).
Proof.
  intros w. destruct (heap w !! l) as [s|] eqn:Hl.
  - destruct (decide (Status s = status)) as [Hs|Hs].
    + rewrite (updateStatus_same w l s status now Hl Hs).
      apply frame_set_trace.
    + rewrite (updateStatus_diff w l s status now Hl Hs).
      by apply (frame_store w l s).
  - unfold updateStatus. munfold. cbn. rewrite Hl.
    by apply frame_same.
Qed.

Create HintDb frm.
#[local] Hint Resolve frames_mret frames_panic frames_emit frames_gets
  frames_load frames_updateStatus frames_defer : frm.

Ltac frm :=
  repeat first
    [ solve [eauto with frm]
    | apply frames_bind; [|intros ?]
    | apply frames_defer
    | case_match ].

Lemma frames_Check p r now : frames (Check p r now).
Proof. unfold Check. frm. Qed.

#[local] Hint Resolve frames_Check : frm.

Lemma frames_tick_case l r now : frames (tick_case l r now).
Proof. unfold tick_case. frm. Qed.

(** A flag flip is a frame step whatever the ID. *)
Lemma frames_EnableSite siteID : frames (EnableSite siteID).
Proof.
  intros w. destruct (sites w !! siteID) as [l|] eqn:Hid.
  - destruct (heap w !! l) as [s|] eqn:Hl.
    + rewrite (EnableSite_known w siteID l s Hid Hl).
      by apply (frame_store w l s).
    + unfold EnableSite. munfold. cbn. rewrite Hid. cbn. rewrite Hl.
      by apply frame_same.
  - rewrite (EnableSite_unknown w siteID Hid). apply frame_set_trace.
Qed.

Lemma frames_DisableSite siteID : frames (DisableSite siteID).
Proof.
  intros w. destruct (sites w !! siteID) as [l|] eqn:Hid.
  - destruct (heap w !! l) as [s|] eqn:Hl.
    + rewrite (DisableSite_known w siteID l s Hid Hl).
      by apply (frame_store w l s).
    + unfold DisableSite. munfold. cbn. rewrite Hid. cbn. rewrite Hl.
      by apply frame_same.
  - rewrite (DisableSite_unknown w siteID Hid). apply frame_set_trace.
Qed.

Lemma frame_heap_Some w w' l s :
  frame w w' → heap w !! l = Some s →
  ∃ s', heap w' !! l = Some s' ∧ site_agree s s'.
Proof.
  intros (_&_&_&_&_&_&Hh) Hl. specialize (Hh l). rewrite Hl in Hh.
  destruct (heap w' !! l) as [s'|]; [by exists s'|done].
Qed.

Lemma registry_wf_frame w w' : registry_wf w → frame w w' → registry_wf w'.
Proof.
  intros (H1 & H2 & H3 & H4 & H5) Hf.
  pose proof Hf as (Hs & Ht & Hg & Hc & Hn & Hl & Hh).
  split; [|split; [|split; [|split]]].
  - intros id l. rewrite Hs. intros Hid.
    destruct (H1 id l Hid) as (s & c & Hhl & Hi & Hcf & Htc & Hnc).
    destruct (frame_heap_Some w w' l s Hf Hhl)
      as (s' & Hl' & HI & _ & _ & HC & _).
    exists s', c. unfold live in *. rewrite Hg, Ht, Hc.
    repeat split; congruence.
  - intros c l. rewrite Hg, Hn. intros Hgc.
    destruct (H2 c l Hgc) as [Hlt [s Hsl]]. split; [done|].
    destruct (frame_heap_Some w w' l s Hf Hsl) as (s' & Hl' & _).
    by eexists.
  - intros c l. rewrite Ht, Hn. intros Htc.
    destruct (H3 c l Htc) as [Hlt (s & Hsl & Hiv)]. split; [done|].
    destruct (frame_heap_Some w w' l s Hf Hsl)
      as (s' & Hl' & _ & _ & HI & _).
    exists s'. split; [done|]. by rewrite <- HI.
  - intros c. rewrite Hc, Hn. apply H4.
  - intros l [s' Hl']. rewrite Hl. apply H5.
    specialize (Hh l).
    destruct (heap w !! l); [by eexists|]. by rewrite Hl' in Hh.
Qed.

(** ** The operations that change registry, goroutines or allocation *)

Lemma registry_wf_alloc w s :
  registry_wf w → registry_wf (world_of (alloc s w)).
Proof.
  intros (H1 & H2 & H3 & H4 & H5). cbn.
  assert (Hfresh : heap w !! next_loc w = None).
  { destruct (heap w !! next_loc w) eqn:E; [|done].
    assert (next_loc w < next_loc w)%nat by (apply H5; by eexists). lia. }
  assert (Hkeep : ∀ l s0, heap w !! l = Some s0 →
            <[next_loc w := s]> (heap w) !! l = Some s0).
  { intros l s0 Hl. rewrite lookup_insert_ne; [done|].
    intros <-. congruence. }
  split; [|split; [|split; [|split]]]; cbn.
  - intros id l Hid.
    destruct (H1 id l Hid) as (s0 & c & Hl & ?).
    exists s0, c. split; [by apply Hkeep|done].
  - intros c l Hc. destruct (H2 c l Hc) as [? [s0 Hs0]]. split; [done|].
    exists s0. by apply Hkeep.
  - intros c l Hc. destruct (H3 c l Hc) as [? (s0 & Hs0 & ?)].
    split; [done|]. exists s0. split; [by apply Hkeep|done].
  - exact H4.
  - intros l. rewrite lookup_insert_is_Some. intros [<-|[_ Hs]]; [lia|].
    specialize (H5 l Hs). lia.
Qed.

Lemma live_bound w c l :
  registry_wf w → live w c = Some l → (c < next_ctx w)%nat.
Proof.
  intros (_ & H2 & H3 & _) Hlive. unfold live in Hlive.
  destruct (spawned w !! c) as [l0|] eqn:E.
  - by apply (H2 c l0).
  - by apply (H3 c l).
Qed.

Lemma registry_wf_register w l s :
  registry_wf w → heap w !! l = Some s → sites w !! ID s = None →
  registry_wf (world_of (RegisterSite (Some l) w)).
Proof.
  intros Hw Hl Hid. pose proof Hw as (H1 & H2 & H3 & H4 & H5).
  rewrite (RegisterSite_fresh w l s Hl Hid). cbn.
  split; [|split; [|split; [|split]]]; cbn.
  - intros id l'. rewrite lookup_insert_Some.
    intros [[<- <-]|[Hne Hold]].
    + eexists _, (next_ctx w). unfold live. cbn. rewrite !lookup_insert_eq.
      repeat split; try done.
      intros Hin. specialize (H4 _ Hin). lia.
    + destruct (H1 id l' Hold) as (s0 & c0 & Hl0 & Hi0 & Hc0 & Ht0 & Hn0).
      assert (l' ≠ l) by (intros ->; congruence).
      assert (c0 ≠ next_ctx w)
        by (pose proof (live_bound w c0 l' Hw Ht0); lia).
      exists s0, c0. unfold live in *. cbn.
      rewrite !lookup_insert_ne by done. by repeat split.
  - intros c l'. rewrite lookup_insert_Some.
    intros [[<- <-]|[Hne Hold]].
    + split; [lia|]. rewrite lookup_insert_eq. by eexists.
    + destruct (H2 c l' Hold) as [? ?]. split; [lia|].
      rewrite lookup_insert_is_Some. destruct (decide (l = l')); auto.
  - intros c l' Hc. destruct (H3 c l' Hc) as [? (s0 & Hs0 & Hiv)].
    split; [lia|]. destruct (decide (l' = l)) as [->|Hne].
    + rewrite lookup_insert_eq. eexists. split; [done|].
      assert (s0 = s) by congruence. by subst.
    + rewrite lookup_insert_ne by done. by exists s0.
  - intros c Hin. specialize (H4 c Hin). lia.
  - intros l'. rewrite lookup_insert_is_Some. intros [<-|[_ Hs]].
    + apply H5. by eexists.
    + by apply H5.
Qed.

Lemma registry_wf_revoke w siteID l :
  registry_wf w → sites w !! siteID = Some l →
  registry_wf (world_of (RevokeSite siteID w)).
Proof.
  intros Hw Hid. pose proof Hw as (H1 & H2 & H3 & H4 & H5).
  destruct (H1 siteID l Hid) as (s & c & Hl & Hi & Hc & Ht & Hn).
  rewrite (RevokeSite_known w siteID l s c Hid Hl Hc). cbn.
  split; [|split; [|split; [|split]]]; cbn;
    [| exact H2 | exact H3 | | exact H5].
  - intros id l'. rewrite lookup_delete_Some. intros [Hne Hold].
    destruct (H1 id l' Hold) as (s0 & c0 & Hl0 & Hi0 & Hc0 & Ht0 & Hn0).
    exists s0, c0. repeat split; try done.
    rewrite elem_of_union, elem_of_singleton. intros [->|?]; [|done].
    assert (l' = l) by congruence. subst l'. congruence.
  - intros c'. rewrite elem_of_union, elem_of_singleton.
    intros [->|Hin]; [by apply (live_bound w c l)|by apply H4].
Qed.

Lemma registry_wf_done w c l :
  registry_wf w → tasks w !! c = Some l → c ∈ cancelled w →
  registry_wf (world_of (done_case c l w)).
Proof.
  intros (H1 & H2 & H3 & H4 & H5) Ht Hc.
  destruct (H3 c l Ht) as [_ (s & Hl & _)].
  rewrite (done_case_eq w c l s Hl). cbn.
  split; [|split; [|split; [|split]]]; cbn;
    [| exact H2 | | exact H4 | exact H5].
  - intros id l'. rewrite lookup_delete_Some. intros [Hne Hold].
    destruct (H1 id l' Hold) as (s0 & c0 & Hl0 & Hi0 & Hc0 & Ht0 & Hn0).
    exists s0, c0. repeat split; try done.
    unfold live in *. cbn. rewrite lookup_delete_ne; [done|].
    intros ->. done.
  - intros c' l'. rewrite lookup_delete_Some. intros [_ Hold].
    by apply H3.
Qed.

Lemma registry_wf_start w c l :
  registry_wf w → spawned w !! c = Some l →
  registry_wf (world_of (start_case c l w)).
Proof.
  intros (H1 & H2 & H3 & H4 & H5) Hg.
  destruct (H2 c l Hg) as [Hlt [s Hl]].
  destruct (decide (Interval s ≤ 0)) as [Hiv|Hiv].
  { by rewrite (start_case_panics w c l s Hl Hiv). }
  rewrite (start_case_ok w c l s Hl) by lia. cbn.
  split; [|split; [|split; [|split]]]; cbn; [| | | exact H4 | exact H5].
  - intros id l' Hid.
    destruct (H1 id l' Hid) as (s0 & c0 & Hl0 & Hi0 & Hc0 & Ht0 & Hn0).
    exists s0, c0. repeat split; try done.
    unfold live in *. cbn. destruct (decide (c0 = c)) as [->|Hne].
    + rewrite lookup_delete_eq, lookup_insert_eq.
      rewrite Hg in Ht0. done.
    + by rewrite lookup_delete_ne, lookup_insert_ne.
  - intros c' l'. rewrite lookup_delete_Some. intros [_ Hold].
    by apply H2.
  - intros c' l'. rewrite lookup_insert_Some.
    intros [[<- <-]|[_ Hold]]; [|by apply H3].
    split; [done|]. exists s. split; [done|lia].
Qed.

Lemma registry_wf_step w o :
  registry_wf w → registry_wf (world_of (step o w)).
Proof.
  intros Hw.
  assert (Hfr : ∀ (m : M unit), frames m → registry_wf (world_of (m w)))
    by (intros m Hm; by apply (registry_wf_frame w)).
  destruct o as [id url iv cfg|p r now|p|id|id|id|c|c r now|c]; cbn [step].
  - pose proof (registry_wf_alloc w (NewSite id url iv cfg) Hw) as Ha.
    unfold mbind, M_bind, bind. by destruct (alloc _ w).
  - apply Hfr. frm.
  - destruct p as [l|]; [|by apply Hfr; unfold RegisterSite; frm].
    destruct (heap w !! l) as [s|] eqn:Hl.
    + destruct (sites w !! ID s) as [l0|] eqn:Hid.
      * apply (registry_wf_frame w); [done|].
        unfold mbind, M_bind, bind, RegisterSite. munfold. cbn.
        rewrite Hl. cbn. rewrite Hid. by apply frame_same.
      * pose proof (registry_wf_register w l s Hw Hl Hid) as Hr.
        unfold mbind, M_bind, bind in *.
        by destruct (RegisterSite (Some l) w).
    + apply (registry_wf_frame w); [done|].
      unfold mbind, M_bind, bind, RegisterSite. munfold. cbn.
      rewrite Hl. by apply frame_same.
  - destruct (sites w !! id) as [l|] eqn:Hid.
    + by apply (registry_wf_revoke w id l).
    + apply (registry_wf_frame w); [done|].
      unfold RevokeSite. munfold. cbn. rewrite Hid. by apply frame_same.
  - apply Hfr. apply frames_EnableSite.
  - apply Hfr. apply frames_DisableSite.
  - unfold mbind, M_bind, bind, gets.
    destruct (spawned w !! c) as [l|] eqn:Hg; [|done].
    by apply registry_wf_start.
  - apply Hfr. frm. all: apply frames_tick_case.
  - unfold mbind, M_bind, bind, gets.
    destruct (tasks w !! c) as [l|] eqn:Ht; [|done].
    case_bool_decide; [|done]. by apply registry_wf_done.
Qed.

Lemma registry_wf_NewManager : registry_wf NewManager.
Proof.
  split; [|split; [|split; [|split]]]; cbn.
  - intros id l H. by rewrite lookup_empty in H.
  - intros c l H. by rewrite lookup_empty in H.
  - intros c l H. by rewrite lookup_empty in H.
  - intros c H. by apply not_elem_of_empty in H.
  - intros l [s H]. by rewrite lookup_empty in H.
Qed.

Lemma registry_wf_run os w :
  registry_wf w → registry_wf (world_of (run os w)).
Proof.
  revert w. induction os as [|o os IH]; intros w Hw; [done|].
  cbn. unfold mbind, M_bind, bind.
  pose proof (registry_wf_step w o Hw) as Hs.
  destruct (step o w) as [[] w'|msg w']; [|done]. by apply IH.
Qed.

(** * Further properties of the scheduler *)

Lemma run_ok_wf os w : run os NewManager = Ok tt w → registry_wf w.
Proof.
  intros H. pose proof (registry_wf_run os NewManager registry_wf_NewManager)
    as Hw. by rewrite H in Hw.
Qed.

Lemma fresh_ctx w :
  registry_wf w →
  (next_ctx w ∉ cancelled w) ∧ spawned w !! next_ctx w = None ∧
  tasks w !! next_ctx w = None.
Proof.
  intros (_ & H2 & H3 & H4 & _). split; [|split].
  - intros Hin. specialize (H4 _ Hin). lia.
  - destruct (spawned w !! next_ctx w) as [l|] eqn:E; [|done].
    destruct (H2 _ _ E). lia.
  - destruct (tasks w !! next_ctx w) as [l|] eqn:E; [|done].
    destruct (H3 _ _ E). lia.
Qed.

(** X1: in every state reached without a panic, registering a live site
    whose ID is free returns nil at once, without any GET.  The registry
    gains exactly that entry; the site's cancellation handle is a
    context that was neither cancelled nor that of any goroutine; one
    goroutine closing over the site is started under it and no other
    goroutine is touched.  When that goroutine runs its first statement,
    it enters the polling loop if the site's interval is positive, and
    otherwise panics in NewTicker, which ends the program. *)
Theorem RegisterSite_fresh_registers (os : list op) (w : World) (l : loc)
    (s : Site) :
  run os NewManager = Ok tt w →
  heap w !! l = Some s → sites w !! ID s = None →
  (next_ctx w ∉ cancelled w) ∧ spawned w !! next_ctx w = None ∧
  tasks w !! next_ctx w = None ∧
  ∃ w' evs,
    RegisterSite (Some l) w = Ok None w' ∧
    sites w' !! ID s = Some l ∧
    (∀ id, id ≠ ID s → sites w' !! id = sites w !! id) ∧
    size (sites w') = S (size (sites w)) ∧
    heap w' !! l = Some (set_cancelFunc (Some (next_ctx w)) s) ∧
    spawned w' = <[next_ctx w := l]> (spawned w) ∧
    tasks w' = tasks w ∧ cancelled w' = cancelled w ∧
    appended w w' evs ∧ no_get evs ∧
    (0 < Interval s →
     ∃ w'', step (OpStart (next_ctx w)) w' = Ok tt w'' ∧
            tasks w'' = <[next_ctx w := l]> (tasks w) ∧
            spawned w'' = spawned w ∧
            sites w'' = sites w' ∧ heap w'' = heap w') ∧
    (Interval s ≤ 0 →
     step (OpStart (next_ctx w)) w' = Panic ticker_panic w').
Proof.
  intros Hrun Hl Hid.
  destruct (fresh_ctx w (run_ok_wf os w Hrun)) as (Hnc & Hng & Hnt).
  split; [done|]. split; [done|]. split; [done|].
  eexists _, _.
  rewrite (RegisterSite_fresh w l s Hl Hid). split; [reflexivity|].
  set (w' := mkWorld _ _ _ _ _ _ _ _).
  assert (Hl' : heap w' !! l = Some (set_cancelFunc (Some (next_ctx w)) s))
    by (subst w'; cbn; by rewrite lookup_insert_eq).
  assert (Hg' : spawned w' !! next_ctx w = Some l)
    by (subst w'; cbn; by rewrite lookup_insert_eq).
  split; [subst w'; cbn; by rewrite lookup_insert_eq|].
  split; [intros id Hne; subst w'; cbn; by rewrite lookup_insert_ne|].
  split; [subst w'; cbn; by rewrite map_size_insert_None|].
  split; [exact Hl'|].
  split; [done|]. split; [done|]. split; [done|].
  split; [subst w'; reflexivity|]. split.
  { intros url Hin.
    repeat (apply elem_of_cons in Hin as [Hin|Hin]; [done|]).
    by apply elem_of_nil in Hin. }
  split.
  - intros Hiv. eexists. cbn [step].
    rewrite (bind_ok _ _ w' (spawned w') w') by done. rewrite Hg'.
    rewrite (start_case_ok w' _ l _ Hl' Hiv). split; [reflexivity|].
    subst w'. cbn. by rewrite delete_insert_id.
  - intros Hiv. cbn [step].
    rewrite (bind_ok _ _ w' (spawned w') w') by done. rewrite Hg'.
    by rewrite (start_case_panics w' _ l _ Hl' Hiv).
Qed.

Lemma RegisterSite_fresh_registers_witness :
  (next_ctx world_alloc ∉ cancelled world_alloc) ∧
  spawned world_alloc !! next_ctx world_alloc = None ∧
  tasks world_alloc !! next_ctx world_alloc = None ∧
  ∃ w' evs,
    RegisterSite (Some 0%nat) world_alloc = Ok None w' ∧
    sites w' !! ID site_a = Some 0%nat ∧
    (∀ id, id ≠ ID site_a → sites w' !! id = sites world_alloc !! id) ∧
    size (sites w') = S (size (sites world_alloc)) ∧
    heap w' !! 0%nat
      = Some (set_cancelFunc (Some (next_ctx world_alloc)) site_a) ∧
    spawned w' = <[next_ctx world_alloc := 0%nat]> (spawned world_alloc) ∧
    tasks w' = tasks world_alloc ∧ cancelled w' = cancelled world_alloc ∧
    appended world_alloc w' evs ∧ no_get evs ∧
    (0 < Interval site_a →
     ∃ w'', step (OpStart (next_ctx world_alloc)) w' = Ok tt w'' ∧
            tasks w'' = <[next_ctx world_alloc := 0%nat]> (tasks world_alloc) ∧
            spawned w'' = spawned world_alloc ∧
            sites w'' = sites w' ∧ heap w'' = heap w') ∧
    (Interval site_a ≤ 0 →
     step (OpStart (next_ctx world_alloc)) w' = Panic ticker_panic w').
Proof.
  apply (RegisterSite_fresh_registers
           [OpNewSite 1 "http://a.test" (10 * Second) DefaultClientConfig]
           world_alloc 0%nat site_a); reflexivity.
Defined.



(** X3: in every state a program reaches without a panic, each registry
    entry points at a live site carrying that ID, whose cancellation
    handle is set and names a context that is not cancelled and under
    which a goroutine closing over that very site is live (started, or
    already in its polling loop); every goroutine in its polling loop
    closes over a site with a positive interval. *)
Theorem registry_wf_reached (os : list op) (w : World) :
  run os NewManager = Ok tt w → registry_wf w.
Proof. apply run_ok_wf. Qed.

Lemma registry_wf_reached_witness : registry_wf world_reg.
Proof.
  apply (registry_wf_reached
           [OpNewSite 1 "http://a.test" (10 * Second) DefaultClientConfig;
            OpRegister (Some 0%nat); OpStart 0%nat] world_reg).
  vm_compute. reflexivity.
Defined.

(** X4: in every reachable world, RevokeSite on a registered ID returns
    normally: it cancels the context of the goroutine that closes over
    that site (started or polling) and the ID is no longer registered
    afterwards, the other entries being kept. *)
Theorem RevokeSite_registered_returns (os : list op) (siteID : Z) (l : loc) :
  sites (reached os) !! siteID = Some l →
  ∃ w' c,
    RevokeSite siteID (reached os) = Ok tt w' ∧
    live (reached os) c = Some l ∧
    (c ∉ cancelled (reached os)) ∧ c ∈ cancelled w' ∧
    sites w' !! siteID = None ∧
    (∀ id, id ≠ siteID → sites w' !! id = sites (reached os) !! id).
Proof.
  intros Hid. destruct (registry_wf_run os NewManager registry_wf_NewManager)
    as (H1 & _).
  destruct (H1 siteID l Hid) as (s & c & Hl & Hi & Hc & Ht & Hn).
  eexists _, c.
  rewrite (RevokeSite_known _ siteID l s c Hid Hl Hc).
  split; [reflexivity|]. cbn. split; [exact Ht|]. split; [exact Hn|].
  split; [apply elem_of_union; left; by apply elem_of_singleton|].
  split; [by rewrite lookup_delete_eq|].
  intros id Hne. by rewrite lookup_delete_ne.
Qed.

Lemma RevokeSite_registered_returns_witness :
  let os := [OpNewSite 1 "http://a.test" (10 * Second) DefaultClientConfig;
             OpRegister (Some 0%nat)] in
  ∃ w' c,
    RevokeSite 1 (reached os) = Ok tt w' ∧
    live (reached os) c = Some 0%nat ∧
    (c ∉ cancelled (reached os)) ∧ c ∈ cancelled w' ∧
    sites w' !! 1 = None ∧
    (∀ id, id ≠ 1 → sites w' !! id = sites (reached os) !! id).
Proof.
  intros os. apply (RevokeSite_registered_returns os 1 0%nat). reflexivity.
Defined.

(** ** What a check does to a site *)



(** X6: a second Check whose outcome falls in the same class as the
    first one's (both transport failures, both >= 400, or both < 400)
    leaves the site's record exactly as the first Check left it:
    StatusChangedAt keeps the time of the change, not of the last check. *)
Theorem Check_repeat_keeps_record (w : World) (l : loc) (s : Site)
    (cl : Client) (r1 r2 : HTTPResult) (now1 now2 : Z) :
  heap w !! l = Some s → client s = Some cl →
  classify r1 = classify r2 →
  ∃ w1 w2,
    Check (Some l) r1 now1 w = Ok (check_error r1) w1 ∧
    Check (Some l) r2 now2 w1 = Ok (check_error r2) w2 ∧
    heap w2 = heap w1.
Proof.
  intros Hl Hc Hcl.
  destruct (Check_full w l s cl r1 now1 Hl Hc)
    as (w1 & evs1 & HC1 & Hh1 & _).
  assert (Hl1 : heap w1 !! l = Some (with_status (classify r1) now1 s))
    by (by rewrite Hh1, lookup_insert_eq).
  assert (Hc1 : client (with_status (classify r1) now1 s) = Some cl)
    by (unfold with_status; by case_decide).
  destruct (Check_full w1 l _ cl r2 now2 Hl1 Hc1)
    as (w2 & evs2 & HC2 & Hh2 & _).
  exists w1, w2. split; [done|]. split; [done|].
  rewrite Hh2, <- Hcl, with_status_idem. by rewrite insert_id.
Qed.

Lemma Check_repeat_keeps_record_witness :
  ∃ w1 w2,
    Check (Some 0%nat) (Response 500) 7 world_reg
      = Ok (check_error (Response 500)) w1 ∧
    Check (Some 0%nat) (Response 404) 9 w1
      = Ok (check_error (Response 404)) w2 ∧
    heap w2 = heap w1.
Proof.
  apply (Check_repeat_keeps_record world_reg 0%nat
           (set_cancelFunc (Some 0%nat) site_a)
           {| cl_Timeout := 10 * Second;
              cl_Transport := {| tr_MaxIdleConns := 100;
                                 tr_IdleConnTimeout := 90 * Second |} |}
           (Response 500) (Response 404) 7 9); reflexivity.
Defined.

(** ** The polling goroutine *)



(** ** Flag flips *)

(** X8: of two consecutive flag flips on a registered site the last one
    wins: the heap is what the second flip alone would give, so calling
    DisableSite (or EnableSite) twice is the same as calling it once and
    EnableSite undoes DisableSite; Status and StatusChangedAt are never
    touched by a flip. *)
Theorem flag_flip_last_wins (w : World) (siteID : Z) (l : loc) (s : Site)
    (b1 b2 : bool) :
  sites w !! siteID = Some l → heap w !! l = Some s →
  let flip (b : bool) := if b then EnableSite siteID else DisableSite siteID in
  ∃ w1 w2,
    flip b1 w = Ok tt w1 ∧ flip b2 w1 = Ok tt w2 ∧
    heap w2 = heap (world_of (flip b2 w)) ∧
    heap w2 !! l = Some (set_Enabled b2 s).
Proof.
  intros Hid Hl flip.
  assert (Hflip : ∀ b w0 s0, sites w0 !! siteID = Some l →
            heap w0 !! l = Some s0 →
            ∃ w', flip b w0 = Ok tt w' ∧
                  heap w' = <[l := set_Enabled b s0]> (heap w0) ∧
                  sites w' = sites w0).
  { intros b w0 s0 H0 H1. destruct b; cbn.
    - rewrite (EnableSite_known w0 siteID l s0 H0 H1). by eexists.
    - rewrite (DisableSite_known w0 siteID l s0 H0 H1). by eexists. }
  destruct (Hflip b1 w s Hid Hl) as (w1 & Hf1 & Hh1 & Hs1).
  assert (Hl1 : heap w1 !! l = Some (set_Enabled b1 s))
    by (by rewrite Hh1, lookup_insert_eq).
  assert (Hid1 : sites w1 !! siteID = Some l) by (by rewrite Hs1).
  destruct (Hflip b2 w1 _ Hid1 Hl1) as (w2 & Hf2 & Hh2 & Hs2).
  destruct (Hflip b2 w s Hid Hl) as (w2' & Hf2' & Hh2' & _).
  exists w1, w2. split; [done|]. split; [done|].
  rewrite Hf2'. cbn [world_of]. rewrite Hh2, Hh2', Hh1, insert_insert_eq.
  split; [done|]. by rewrite lookup_insert_eq.
Qed.

Lemma flag_flip_last_wins_witness :
  let flip (b : bool) := if b then EnableSite 1 else DisableSite 1 in
  ∃ w1 w2,
    flip false world_reg = Ok tt w1 ∧ flip false w1 = Ok tt w2 ∧
    heap w2 = heap (world_of (flip false world_reg)) ∧
    heap w2 !! 0%nat
      = Some (set_Enabled false (set_cancelFunc (Some 0%nat) site_a)).
Proof.
  apply (flag_flip_last_wins world_reg 1 0%nat
           (set_cancelFunc (Some 0%nat) site_a) false false); reflexivity.
Defined.

(** ** Lock discipline *)

Lemma locks_scan_app h evs1 evs2 :
  locks_scan h (evs1 ++ evs2) =
    match locks_scan h evs1 with
    | Some h' => locks_scan h' evs2
    | None => None
    end.
Proof.
  revert h. induction evs1 as [|e evs1 IH]; intros h; [done|]. cbn.
  destruct (lock_step h e); [apply IH|done].
Qed.

Lemma runs_under_silent {A} h (m : M A) :
  (∀ w, trace (world_of (m w)) = trace w) → runs_under h m.
Proof. intros Hm w. exists []. by rewrite app_nil_r, Hm. Qed.

Lemma runs_under_bind {A B} h (m : M A) (f : A → M B) :
  runs_under h m → (∀ a, runs_under h (f a)) → runs_under h (m ≫= f).
Proof.
  intros Hm Hf w. destruct (Hm w) as (evs1 & Ht1 & Hs1).
  unfold mbind, M_bind, bind. destruct (m w) as [a w'|msg w']; cbn in *.
  - destruct (Hf a w') as (evs2 & Ht2 & Hs2).
    exists (evs1 ++ evs2). rewrite Ht2, Ht1, app_assoc. split; [done|].
    by rewrite locks_scan_app, Hs1.
  - by exists evs1.
Qed.

Lemma runs_under_emit h e : lock_step h e = Some h → runs_under h (emit e).
Proof. intros He w. exists [e]. cbn. by rewrite He. Qed.

Lemma runs_under_defer {A} h e (m : M A) :
  lock_step h e = Some h → runs_under h m →
  runs_under h (defer (record e) m).
Proof.
  intros He Hm w. destruct (Hm w) as (evs & Ht & Hs).
  exists (evs ++ [e]). unfold defer.
  destruct (m w); cbn in *; rewrite Ht, app_assoc;
    (split; [done|]); rewrite locks_scan_app, Hs; cbn; by rewrite He.
Qed.

(** Lock, deferred unlock, and a body that keeps the lock in order. *)
Lemma runs_under_locked {A} mu (m : M A) :
  runs_under (Some mu) m →
  runs_under None (emit (EvLock mu);; defer (record (EvUnlock mu)) m).
Proof.
  intros Hm w.
  destruct (Hm (record (EvLock mu) w)) as (evs & Ht & Hs).
  exists (EvLock mu :: evs ++ [EvUnlock mu]).
  unfold mbind, M_bind, bind, emit, defer.
  destruct (m (record (EvLock mu) w)); cbn in *;
    rewrite Ht, <- !app_assoc; (split; [done|]);
    rewrite locks_scan_app, Hs; cbn; by rewrite decide_True.
Qed.

Lemma runs_under_mret {A} h (a : A) : runs_under h (mret a).
Proof. by apply runs_under_silent. Qed.

Lemma runs_under_panic {A} h msg : runs_under h (@panic A msg).
Proof. by apply runs_under_silent. Qed.

Lemma runs_under_gets {A} h (f : World → A) : runs_under h (gets f).
Proof. by apply runs_under_silent. Qed.

Lemma runs_under_load h p : runs_under h (load p).
Proof.
  apply runs_under_silent. intros w. unfold load.
  destruct p as [l|]; [|done]. by destruct (heap w !! l).
Qed.

Lemma runs_under_store h l s : runs_under h (store l s).
Proof. by apply runs_under_silent. Qed.

Lemma runs_under_alloc h s : runs_under h (alloc s).
Proof. by apply runs_under_silent. Qed.

Lemma runs_under_WithCancel h : runs_under h WithCancel.
Proof. by apply runs_under_silent. Qed.

Lemma runs_under_modify h (f : World → World) :
  (∀ w, trace (f w) = trace w) → runs_under h (modify f).
Proof. intros Hf. apply runs_under_silent. intros w. apply Hf. Qed.

Create HintDb lck.
#[local] Hint Resolve runs_under_mret runs_under_panic runs_under_gets
  runs_under_load runs_under_store runs_under_alloc runs_under_WithCancel
  : lck.

Ltac lck_step :=
  first
    [ solve [eauto with lck]
    | apply runs_under_locked
    | apply runs_under_emit; cbn; try rewrite decide_True by done; done
    | apply runs_under_modify; by intros
    | apply runs_under_defer;
        [cbn; try rewrite decide_True by done; done|]
    | apply runs_under_bind; [|intros ?]
    | case_match ].

Lemma runs_under_updateStatus l status now :
  runs_under None (updateStatus l status now).
Proof. unfold updateStatus. repeat lck_step. Qed.

#[local] Hint Resolve runs_under_updateStatus : lck.

Lemma runs_under_Check p r now : runs_under None (Check p r now).
Proof. unfold Check. repeat lck_step. Qed.

#[local] Hint Resolve runs_under_Check : lck.

Lemma runs_under_done_case c l : runs_under None (done_case c l).
Proof.
  intros w. destruct (heap w !! l) as [s|] eqn:Hl.
  - rewrite (done_case_eq w c l s Hl). eexists. split; [reflexivity|].
    cbn. by rewrite !decide_True.
  - exists []. unfold done_case. munfold. cbn. rewrite Hl.
    by rewrite app_nil_r.
Qed.

#[local] Hint Resolve runs_under_done_case : lck.

Lemma runs_under_step o : runs_under None (step o).
Proof.
  destruct o; unfold step.
  - repeat lck_step.
  - repeat lck_step.
  - unfold RegisterSite, go. repeat lck_step.
  - unfold RevokeSite, call_cancel. repeat lck_step.
  - unfold EnableSite. repeat lck_step.
  - unfold DisableSite. repeat lck_step.
  - unfold start_case. repeat lck_step.
  - unfold tick_case. repeat lck_step.
  - repeat lck_step.
Qed.

Lemma runs_under_run os : runs_under None (run os).
Proof.
  induction os as [|o os IH]; cbn.
  - apply runs_under_mret.
  - apply runs_under_bind; [apply runs_under_step|by intros].
Qed.

(** X12: along every sequence of operations and goroutine steps, ended
    normally or by a panic, no operation takes a lock while it holds
    another, every lock taken is released by the operation that took it
    (all locks are free at the end), every write of Status or
    StatusChangedAt happens under the lock of the site written, and every
    insertion into or deletion from the registry map happens under the
    manager's lock. *)
Theorem locks_ok_reached (os : list op) : locks_ok (trace (reached os)).
Proof.
  destruct (runs_under_run os NewManager) as (evs & Ht & Hs).
  unfold locks_ok, reached. by rewrite Ht.
Qed.

(** ** Revocation and ID reuse *)

Lemma RevokeSite_absent (w : World) (siteID : Z) :
  sites w !! siteID = None →
  RevokeSite siteID w =
    Panic nil_deref
      (set_trace (trace w ++ [EvLock ManagerMu; EvUnlock ManagerMu]) w).
Proof.
  intros Hid. unfold RevokeSite. munfold. cbn. rewrite Hid. cbn.
  unfold record, set_trace; cbn. by rewrite <- app_assoc.
Qed.

(** X9: the [Done] arm of a cancelled goroutine deletes whatever entry
    the registry holds under its site's ID.  If the ID was registered
    again in the meantime, that new entry is removed while the goroutine
    of the new registration keeps running; the ID can then no longer be
    revoked (RevokeSite panics on it). *)
Theorem stale_done_unregisters (w : World) (c c' : ctx) (l l' : loc)
    (s : Site) :
  tasks w !! c = Some l → c ∈ cancelled w → heap w !! l = Some s →
  sites w !! ID s = Some l' → tasks w !! c' = Some l' → c' ≠ c →
  ∃ w' w'',
    step (OpDone c) w = Ok tt w' ∧
    sites w' !! ID s = None ∧
    tasks w' !! c' = Some l' ∧ tasks w' !! c = None ∧
    cancelled w' = cancelled w ∧
    RevokeSite (ID s) w' = Panic nil_deref w''.
Proof.
  intros Ht Hc Hl Hid Ht' Hne. eexists _, _.
  cbn [step]. rewrite (bind_ok _ _ w (tasks w) w) by done.
  rewrite (bind_ok _ _ w (cancelled w) w) by done.
  rewrite Ht, bool_decide_eq_true_2 by done.
  rewrite (done_case_eq w c l s Hl). split; [reflexivity|]. cbn.
  rewrite !lookup_delete_eq, lookup_delete_ne by done.
  repeat split; try done.
  apply RevokeSite_absent. cbn. by rewrite lookup_delete_eq.
Qed.

Lemma stale_done_unregisters_witness :
  ∃ w' w'',
    step (OpDone 0%nat) (reached reuse_ops) = Ok tt w' ∧
    sites w' !! 1 = None ∧
    tasks w' !! 1%nat = Some 0%nat ∧ tasks w' !! 0%nat = None ∧
    cancelled w' = cancelled (reached reuse_ops) ∧
    RevokeSite 1 w' = Panic nil_deref w''.
Proof.
  apply (stale_done_unregisters (reached reuse_ops) 0%nat 1%nat 0%nat 0%nat
           (set_cancelFunc (Some 1%nat) site_a));
    first [ reflexivity | lia
          | apply bool_decide_unpack; vm_compute; reflexivity ].
Defined.



(** X11: in every state reached without a panic, for a live site with a
    positive interval and a free ID: registering it, letting its
    goroutine create its ticker, revoking the ID and letting the
    goroutine observe the cancellation brings registry and goroutines
    back to what they were before the registration, and the same site
    can then be registered again. *)
Theorem register_revoke_done_restores (os : list op) (w : World) (l : loc)
    (s : Site) :
  run os NewManager = Ok tt w →
  heap w !! l = Some s → sites w !! ID s = None → 0 < Interval s →
  ∃ w4 w5,
    run [OpRegister (Some l); OpStart (next_ctx w); OpRevoke (ID s);
         OpDone (next_ctx w)] w = Ok tt w4 ∧
    sites w4 = sites w ∧ tasks w4 = tasks w ∧ spawned w4 = spawned w ∧
    RegisterSite (Some l) w4 = Ok None w5 ∧
    sites w5 !! ID s = Some l.
Proof.
  intros Hrun Hl Hid Hiv.
  destruct (fresh_ctx w (run_ok_wf os w Hrun)) as (_ & Hng & Hnt).
  set (c := next_ctx w) in *. set (s1 := set_cancelFunc (Some c) s).
  pose proof (RegisterSite_fresh w l s Hl Hid) as HR. fold c s1 in HR.
  set (w1 := mkWorld _ _ _ _ _ _ _ _) in HR.
  assert (Hl1 : heap w1 !! l = Some s1)
    by (subst w1; cbn; by rewrite lookup_insert_eq).
  pose proof (start_case_ok w1 c l s1 Hl1 Hiv) as HS.
  set (w2 := mkWorld _ _ _ _ _ _ _ _) in HS.
  assert (Hl2 : heap w2 !! l = Some s1) by exact Hl1.
  assert (Hid2 : sites w2 !! ID s = Some l)
    by (subst w2 w1; cbn; by rewrite lookup_insert_eq).
  pose proof (RevokeSite_known w2 (ID s) l s1 c Hid2 Hl2 eq_refl) as HV.
  set (w3 := mkWorld _ _ _ _ _ _ _ _) in HV.
  assert (Hl3 : heap w3 !! l = Some s1) by exact Hl1.
  pose proof (done_case_eq w3 c l s1 Hl3) as HD.
  set (w4 := mkWorld _ _ _ _ _ _ _ _) in HD.
  assert (Hs4 : sites w4 = sites w).
  { subst w4 w3 w2 w1. cbn. by rewrite delete_insert_id, delete_id. }
  assert (Ht4 : tasks w4 = tasks w).
  { subst w4 w3 w2 w1. cbn. by rewrite delete_insert_id. }
  assert (Hg4 : spawned w4 = spawned w).
  { subst w4 w3 w2 w1. cbn. by rewrite delete_insert_id. }
  assert (Hl4 : heap w4 !! l = Some s1) by exact Hl1.
  assert (Hid4 : sites w4 !! ID s1 = None) by (by rewrite Hs4).
  exists w4. eexists.
  split; [|split; [exact Hs4|split; [exact Ht4|split; [exact Hg4|]]]].
  - cbn [run step].
    rewrite (bind_ok _ _ w tt w1)
      by (by rewrite (bind_ok _ _ _ _ _ HR)).
    rewrite (bind_ok _ _ w1 tt w2).
    2:{ rewrite (bind_ok _ _ w1 (spawned w1) w1) by done.
        replace (spawned w1 !! c) with (Some l)
          by (subst w1; cbn; by rewrite lookup_insert_eq).
        exact HS. }
    rewrite (bind_ok _ _ w2 tt w3) by exact HV.
    rewrite (bind_ok _ _ w3 tt w4); [done|].
    rewrite (bind_ok _ _ w3 (tasks w3) w3) by done.
    rewrite (bind_ok _ _ w3 (cancelled w3) w3) by done.
    replace (tasks w3 !! c) with (Some l)
      by (subst w3 w2; cbn; by rewrite lookup_insert_eq).
    rewrite bool_decide_eq_true_2; [exact HD|].
    subst w3. cbn. apply elem_of_union. left. by apply elem_of_singleton.
  - rewrite (RegisterSite_fresh w4 l s1 Hl4 Hid4). split; [reflexivity|].
    cbn. by rewrite lookup_insert_eq.
Qed.

Lemma register_revoke_done_restores_witness :
  ∃ w4 w5,
    run [OpRegister (Some 0%nat); OpStart (next_ctx world_alloc);
         OpRevoke (ID site_a); OpDone (next_ctx world_alloc)] world_alloc
      = Ok tt w4 ∧
    sites w4 = sites world_alloc ∧ tasks w4 = tasks world_alloc ∧
    spawned w4 = spawned world_alloc ∧
    RegisterSite (Some 0%nat) w4 = Ok None w5 ∧
    sites w5 !! ID site_a = Some 0%nat.
Proof.
  apply (register_revoke_done_restores
           [OpNewSite 1 "http://a.test" (10 * Second) DefaultClientConfig]
           world_alloc 0%nat site_a); reflexivity.
Defined.

(** * The migration command *)

Section migrate_main.
Import migrate_cmd.

Lemma inner_Forall_status (records : list string) :
  Forall inner (map (λ id, APrint "- %s\n" [ArgStr id]) records).
Proof.
  apply Forall_fmap, Forall_forall. intros id _. by repeat split.
Qed.

Ltac inner_list :=
  repeat first [ apply Forall_nil_2
               | apply Forall_cons_2; [by repeat split|]
               | apply inner_Forall_status ].

(** No command closure opens or closes the database or prints the final
    line. *)
Lemma commands_inner (env : Env) (command : string) (args : list string)
    cmdFunc :
  lookup_command command commands = Some cmdFunc →
  Forall inner (cmdFunc env args).1.
Proof.
  unfold commands. cbn [lookup_command].
  repeat case_bool_decide; intros [= <-].
  - unfold cmd_up. destruct (exec env 0 _) as [n [e|]]; cbn; inner_list.
  - unfold cmd_down. destruct (exec env 0 _) as [n [e|]]; cbn; inner_list.
  - unfold cmd_new. destruct args as [|? [|name ?]]; cbn; inner_list.
    destruct (write_file env _); cbn; inner_list.
  - unfold cmd_redo. destruct (exec env 0 _) as [n [e|]]; cbn; inner_list.
    destruct (exec env 1 _) as [n' [e|]]; cbn; inner_list.
  - unfold cmd_status.
    destruct (migration_records env) as [[|r rs] [e|]]; cbn; inner_list.
  - unfold cmd_fresh. destruct (exec env 0 _) as [n [e|]]; cbn; inner_list.
    destruct (exec env 1 _) as [n' [e|]]; cbn; inner_list.
Qed.

(** What the lookup and the call leave: the closure's own actions,
    followed by the final line exactly when the command returned nil. *)
Lemma dispatch_shape (env : Env) (command : string) (args : list string) :
  ∃ t, Forall inner t ∧
       ((dispatch env command args = (t ++ [success_message], Returned)) ∨
        (∃ f a, dispatch env command args = (t, Panicked f a))).
Proof.
  unfold dispatch.
  destruct (lookup_command command commands) as [cmdFunc|] eqn:E.
  - pose proof (commands_inner env command args cmdFunc E) as Hin.
    destruct (cmdFunc env args) as [t [|err|f a]]; cbn in Hin;
      exists t; (split; [done|]); [by left|right; by eexists _, _..].
  - exists []. split; [constructor|]. right. by eexists _, _.
Qed.

Lemma inner_not_in (a : action) (t : list action) :
  Forall inner t → ¬ inner a → a ∉ t.
Proof.
  intros Ht Ha Hin. rewrite Forall_forall in Ht. by apply Ha, Ht.
Qed.
(** X13: [main] calls InitDatabase exactly when the environment file
    was loaded and a command other than "new" is given, and then once,
    right after loading the environment file.  The database is closed
    exactly when InitDatabase was called and succeeded, and then exactly
    once, as the very last action of [main], whether [main] returns or
    panics.  So a failed environment file, a missing command and the
    command "new" lead to neither call, and a failed InitDatabase to no
    Close. *)
Theorem main_closes_db_iff_opened (env : Env) (useTestEnv : bool)
    (args : list string) :
  let t := (main env useTestEnv args).1 in
  (AInitDatabase ∈ t ↔
     load_env env (env_file useTestEnv) = None ∧
     ∃ command rest, args = command :: rest ∧ command ≠ "new") ∧
  (AInitDatabase ∈ t →
     ∃ t', t = ALoadEnv (env_file useTestEnv) :: AInitDatabase :: t' ∧
           AInitDatabase ∉ t') ∧
  (ACloseDB ∈ t ↔ AInitDatabase ∈ t ∧ init_database env = None) ∧
  (ACloseDB ∈ t → ∃ t', t = t' ++ [ACloseDB] ∧ ACloseDB ∉ t').
Proof.
  assert (Hnc : ¬ inner ACloseDB) by (intros (_ & H & _); by apply H).
  assert (Hni : ¬ inner AInitDatabase) by (intros (H & _); by apply H).
  assert (Hone : ∀ (a b : action), a ≠ b → a ∉ [b]).
  { intros a b Hab H. apply elem_of_cons in H as [H|H]; [done|].
    by apply elem_of_nil in H. }
  unfold main, loadEnvFile. fold (env_file useTestEnv).
  destruct (load_env env (env_file useTestEnv)) as [e|] eqn:Hload; cbn.
  { split; [split; [intros H; by apply Hone in H|by intros [? _]]|].
    split; [intros H; by apply Hone in H|].
    split; [split; [intros H; by apply Hone in H
                   |intros [H _]; by apply Hone in H]|].
    intros H; by apply Hone in H. }
  destruct args as [|command rest]; cbn.
  { split; [split; [intros H; by apply Hone in H
                   |by intros [_ (? & ? & ? & _)]]|].
    split; [intros H; by apply Hone in H|].
    split; [split; [intros H; by apply Hone in H
                   |intros [H _]; by apply Hone in H]|].
    intros H; by apply Hone in H. }
  destruct (dispatch_shape env command (command :: rest))
    as (t & Ht & Hd).
  pose proof (inner_not_in ACloseDB t Ht Hnc) as HtC.
  pose proof (inner_not_in AInitDatabase t Ht Hni) as HtI.
  assert (HsC : ACloseDB ∉ t ++ [success_message]).
  { intros [H|H]%elem_of_app; [done|]. by apply Hone in H. }
  assert (HsI : AInitDatabase ∉ t ++ [success_message]).
  { intros [H|H]%elem_of_app; [done|]. by apply Hone in H. }
  assert (Hin2 : ∀ (a b : action) u, a ∈ b :: a :: u).
  { intros a b u. apply elem_of_cons. right. apply elem_of_cons. by left. }
  case_bool_decide as Hnew.
  - destruct (init_database env) as [e|] eqn:Hinit; cbn.
    + split; [split; [intros _; split; [done|by eexists _, _]
                     |intros _; apply Hin2]|].
      split; [intros _; exists []; split; [done|apply not_elem_of_nil]|].
      split; [split; [|intros [_ ?]; done]|];
        intros H0;
        repeat (apply elem_of_cons in H0 as [H0|H0]; [done|]);
        by apply elem_of_nil in H0.
    + assert (Hlast : ∀ u, ACloseDB ∈ ALoadEnv (env_file useTestEnv)
                             :: AInitDatabase :: u ++ [ACloseDB]).
      { intros u. do 2 (apply elem_of_cons; right).
        apply elem_of_app. right. apply elem_of_cons. by left. }
      assert (HIu : ∀ u, AInitDatabase ∉ u →
                AInitDatabase ∉ u ++ [ACloseDB]).
      { intros u Hu [H0|H0]%elem_of_app; [done|]. by apply Hone in H0. }
      destruct Hd as [Hd|(f & a & Hd)]; rewrite Hd; cbn.
      * split; [split; [intros _; split; [done|by eexists _, _]
                       |intros _; apply Hin2]|].
        split; [intros _; eexists; split; [reflexivity|by apply HIu]|].
        split; [split; [intros _; split; [apply Hin2|done]
                       |intros _; apply Hlast]|].
        intros _.
        exists (ALoadEnv (env_file useTestEnv)
                :: AInitDatabase :: t ++ [success_message]).
        split; [done|].
        intros H0. apply elem_of_cons in H0 as [H0|H0]; [done|].
        apply elem_of_cons in H0 as [H0|H0]; [done|]. done.
      * split; [split; [intros _; split; [done|by eexists _, _]
                       |intros _; apply Hin2]|].
        split; [intros _; eexists; split; [reflexivity|by apply HIu]|].
        split; [split; [intros _; split; [apply Hin2|done]
                       |intros _; apply Hlast]|].
        intros _.
        exists (ALoadEnv (env_file useTestEnv) :: AInitDatabase :: t).
        split; [done|].
        intros H0. apply elem_of_cons in H0 as [H0|H0]; [done|].
        apply elem_of_cons in H0 as [H0|H0]; [done|]. done.
  - assert (command = "new") as ->
      by (destruct (decide (command = "new")); [done|by destruct Hnew]).
    destruct Hd as [Hd|(f & a & Hd)]; rewrite Hd; cbn.
    + split; [split; [intros H0; apply elem_of_cons in H0 as [H0|H0]; done
                     |intros [_ (c0 & r0 & [= <- _] & Hc0)]; done]|].
      split; [intros H0; apply elem_of_cons in H0 as [H0|H0]; done|].
      split; [split; [intros H0|intros [H0 _]]|intros H0];
        apply elem_of_cons in H0 as [H0|H0]; done.
    + split; [split; [intros H0; apply elem_of_cons in H0 as [H0|H0]; done
                     |intros [_ (c0 & r0 & [= <- _] & Hc0)]; done]|].
      split; [intros H0; apply elem_of_cons in H0 as [H0|H0]; done|].
      split; [split; [intros H0|intros [H0 _]]|intros H0];
        apply elem_of_cons in H0 as [H0|H0]; done.
Qed.

(** X14: [main] returns normally exactly when the final line "Command
    executed successfully!" was printed; every panic, whatever its
    cause, leaves that line unprinted. *)
Theorem main_returns_iff_success_printed (env : Env) (useTestEnv : bool)
    (args : list string) :
  (main env useTestEnv args).2 = Returned ↔
  success_message ∈ (main env useTestEnv args).1.
Proof.
  assert (Hns : ¬ inner success_message)
    by (intros (_ & _ & H); by apply H).
  unfold main, loadEnvFile.
  destruct (load_env env _) as [e|]; cbn.
  { split; [done|]. intros H. apply elem_of_cons in H as [H|H]; [done|].
    by apply elem_of_nil in H. }
  destruct args as [|command rest]; cbn.
  { split; [done|]. intros H. apply elem_of_cons in H as [H|H]; [done|].
    by apply elem_of_nil in H. }
  destruct (dispatch_shape env command (command :: rest))
    as (t & Ht & Hd).
  pose proof (inner_not_in success_message t Ht Hns) as HtS.
  case_bool_decide.
  - destruct (init_database env) as [e|]; cbn.
    + split; [done|]. intros H0.
      repeat (apply elem_of_cons in H0 as [H0|H0]; [done|]).
      by apply elem_of_nil in H0.
    + destruct Hd as [Hd|(f & a & Hd)]; rewrite Hd; cbn.
      * split; [|done]. intros _. apply elem_of_cons. right.
        apply elem_of_cons. right. apply elem_of_app. left.
        apply elem_of_app. right. apply elem_of_cons. by left.
      * split; [done|]. intros H0.
        apply elem_of_cons in H0 as [H0|H0]; [done|].
        apply elem_of_cons in H0 as [H0|H0]; [done|].
        apply elem_of_app in H0 as [H0|H0]; [done|].
        apply elem_of_cons in H0 as [H0|H0]; [done|].
        by apply elem_of_nil in H0.
  - destruct Hd as [Hd|(f & a & Hd)]; rewrite Hd; cbn.
    + split; [|done]. intros _. apply elem_of_cons. right.
      apply elem_of_app. right. apply elem_of_cons. by left.
    + split; [done|]. intros H0.
      apply elem_of_cons in H0 as [H0|H0]; done.
Qed.

Lemma lookup_command_None {V : Type} (key : string) (m : list (string * V)) :
  key ∉ m.*1 → lookup_command key m = None.
Proof.
  induction m as [|[k v] m IH]; [done|]. cbn. intros Hnin.
  rewrite not_elem_of_cons in Hnin. destruct Hnin as [Hne Hnin].
  rewrite bool_decide_eq_false_2 by done. by apply IH.
Qed.

Lemma lookup_new : lookup_command "new" commands = Some cmd_new.
Proof. reflexivity. Qed.

Lemma lookup_redo : lookup_command "redo" commands = Some cmd_redo.
Proof. reflexivity. Qed.

(** X15: a first argument that is none of the six command names makes
    [main] panic with "Unknown command", but only after the database has
    been opened; it is closed again and nothing else is done.  This is
    so for "create", which the usage message of [main] lists among the
    commands. *)
Theorem main_unknown_command (env : Env) (useTestEnv : bool)
    (command : string) (rest : list string) :
  command ∉ command_names →
  load_env env (env_file useTestEnv) = None → init_database env = None →
  main env useTestEnv (command :: rest) =
    ([ALoadEnv (env_file useTestEnv); AInitDatabase; ACloseDB],
     Panicked "Unknown command: %s" [ArgStr command]).
Proof.
  intros Hnin Hload Hinit. unfold main, loadEnvFile.
  fold (env_file useTestEnv). rewrite Hload.
  rewrite bool_decide_eq_true_2.
  - rewrite Hinit. unfold dispatch.
    by rewrite (lookup_command_None command commands Hnin).
  - intros ->. apply Hnin. unfold command_names.
    do 2 (apply elem_of_cons; right). apply elem_of_cons. by left.
Qed.

Lemma main_unknown_command_witness :
  main env_ok false ["create"; "add_users"] =
    ([ALoadEnv (env_file false); AInitDatabase; ACloseDB],
     Panicked "Unknown command: %s" [ArgStr "create"]).
Proof.
  apply (main_unknown_command env_ok false "create" ["add_users"]);
    [|reflexivity|reflexivity].
  unfold command_names. intros H.
  repeat (apply elem_of_cons in H as [H|H]; [discriminate|]).
  by apply elem_of_nil in H.
Defined.

(** X16: the command "new" never reaches the database, whatever the
    outside world answers: no InitDatabase, no Close, no migration call.
    With a name given, and the environment file and the file write
    succeeding, it writes the template to
    ./migrations/<timestamp>_<name>.sql with mode 0644 and returns. *)
Theorem main_new_skips_database (env : Env) (useTestEnv : bool)
    (rest : list string) :
  Forall (λ a, touches_db a = false)
         (main env useTestEnv ("new" :: rest)).1 ∧
  (∀ name more,
     rest = name :: more →
     load_env env (env_file useTestEnv) = None →
     write_file env
       (migrationsDir ++ "/" ++ timestamp env ++ "_" ++ name ++ ".sql")%string
       = None →
     main env useTestEnv ("new" :: rest) =
       ([ALoadEnv (env_file useTestEnv);
         AWriteFile
           (migrationsDir ++ "/" ++ timestamp env ++ "_" ++ name ++ ".sql")%string
           migration_template 420;
         APrint "Created migration file: %s\n"
           [ArgStr (migrationsDir ++ "/" ++ timestamp env ++ "_" ++ name
                    ++ ".sql")%string];
         success_message], Returned)).
Proof.
  split.
  - unfold main, loadEnvFile. destruct (load_env env _);
      [by repeat constructor|].
    rewrite bool_decide_eq_false_2 by (intros H; by apply H).
    unfold dispatch. rewrite lookup_new. unfold cmd_new.
    destruct rest as [|name more]; [by repeat constructor|].
    match goal with
    | |- context [write_file env ?f] => destruct (write_file env f)
    end; by repeat constructor.
  - intros name more -> Hload Hwrite. unfold main, loadEnvFile.
    fold (env_file useTestEnv). rewrite Hload.
    rewrite bool_decide_eq_false_2 by (intros H; by apply H).
    unfold dispatch. rewrite lookup_new. unfold cmd_new.
    by rewrite Hwrite.
Qed.

Lemma main_new_skips_database_witness :
  Forall (λ a, touches_db a = false)
         (main env_ok true ["new"; "add_users"]).1 ∧
  main env_ok true ["new"; "add_users"] =
    ([ALoadEnv ".env.test";
      AWriteFile "./migrations/20241101120000_add_users.sql"
                 migration_template 420;
      APrint "Created migration file: %s\n"
             [ArgStr "./migrations/20241101120000_add_users.sql"];
      success_message], Returned).
Proof.
  destruct (main_new_skips_database env_ok true ["add_users"]) as [H1 H2].
  split; [exact H1|].
  apply (H2 "add_users" []); reflexivity.
Defined.

(** X17: "redo" is not atomic.  If the rollback fails, no re-apply is
    attempted; if the rollback succeeds and the re-apply fails, [main]
    panics with the migration left rolled back.  In both cases the
    database is closed and the final line is not printed. *)
Theorem main_redo_stops_at_first_error (env : Env) (useTestEnv : bool)
    (rest : list string) :
  load_env env (env_file useTestEnv) = None → init_database env = None →
  (∀ n e,
     exec env 0 (AExecMax Down 1) = (n, Some e) →
     main env useTestEnv ("redo" :: rest) =
       ([ALoadEnv (env_file useTestEnv); AInitDatabase; AExecMax Down 1;
         ACloseDB],
        Panicked "Failed to execute command %s: %v"
                 [ArgStr "redo"; ArgStr e])) ∧
  (∀ n n' e,
     exec env 0 (AExecMax Down 1) = (n, None) →
     exec env 1 (AExecMax Up 1) = (n', Some e) →
     main env useTestEnv ("redo" :: rest) =
       ([ALoadEnv (env_file useTestEnv); AInitDatabase; AExecMax Down 1;
         APrint "Rolled back %d migration!\n" [ArgInt n]; AExecMax Up 1;
         ACloseDB],
        Panicked "Failed to execute command %s: %v"
                 [ArgStr "redo"; ArgStr e])).
Proof.
  intros Hload Hinit. split.
  - intros n e H0. unfold main, loadEnvFile.
    fold (env_file useTestEnv). rewrite Hload.
    rewrite bool_decide_eq_true_2 by done. rewrite Hinit.
    unfold dispatch. rewrite lookup_redo. unfold cmd_redo.
    by rewrite H0.
  - intros n n' e H0 H1. unfold main, loadEnvFile.
    fold (env_file useTestEnv). rewrite Hload.
    rewrite bool_decide_eq_true_2 by done. rewrite Hinit.
    unfold dispatch. rewrite lookup_redo. unfold cmd_redo.
    by rewrite H0, H1.
Qed.

Lemma main_redo_stops_at_first_error_witness :
  main env_exec_fails false ["redo"] =
    ([ALoadEnv ".env"; AInitDatabase; AExecMax Down 1; ACloseDB],
     Panicked "Failed to execute command %s: %v"
              [ArgStr "redo"; ArgStr "database is locked"]) ∧
  main env_second_fails false ["redo"] =
    ([ALoadEnv ".env"; AInitDatabase; AExecMax Down 1;
      APrint "Rolled back %d migration!\n" [ArgInt 1]; AExecMax Up 1;
      ACloseDB],
     Panicked "Failed to execute command %s: %v"
              [ArgStr "redo"; ArgStr "syntax error in migration"]).
Proof.
  split.
  - destruct (main_redo_stops_at_first_error env_exec_fails false []
                eq_refl eq_refl) as [H1 _].
    apply (H1 0 "database is locked"). reflexivity.
  - destruct (main_redo_stops_at_first_error env_second_fails false []
                eq_refl eq_refl) as [_ H2].
    apply (H2 1 0 "syntax error in migration"); reflexivity.
Defined.
End migrate_main.
